(** * BSpline.cpp: smoothing cubic B-splines over a banded system

    A shallow embedding of [bspline/lib/BSpline.cpp] (classes [BSplineBase]
    and [BSpline]) and the properties of its specification.

    Conventions of the embedding.
    - [float] is IEEE binary32, given by the Standard Library's executable
      specification [SpecFloat] at precision 24 and exponent bound 128;
      every arithmetic step of the source is one correctly rounded operation
      (round to nearest, ties to even).  Where C++ promotes an operand to
      [double] (a literal such as [0.25] or [1.0], the constant [PI]) the
      operation is carried out at precision 53 and the result rounded back.
    - [int] is [Z]; node counts and indices are assumed to stay inside the
      range of [int], except for the one float-to-int conversion of [addP],
      whose range is checked.
    - A run that hits a failed [assert], [exit(1)], an out-of-range vector
      access or an undefined conversion ends in [Err]; recursion and the
      open-ended search loops take fuel and end in [Err OutOfFuel] when it is
      used up.
    - Members that the source leaves uninitialised are whatever the incoming
      state holds. *)

From Stdlib Require Import ZArith Bool Lia.
From Stdlib Require Import Floats.SpecFloat.
From stdpp Require Import base option list gmap.

Open Scope Z_scope.

(** ** Outcomes of a run *)

Inductive error : Type :=
| AssertFailed   (* assert(...) does not hold *)
| Undefined      (* out-of-range read, undefined float-to-int conversion *)
| Exited         (* exit(1) *)
| OutOfFuel.     (* the model's fuel ran out *)

Inductive result (A : Type) : Type :=
| Ok (a : A)
| Err (e : error).
Arguments Ok {A} a.
Arguments Err {A} e.

Definition rbind {A B} (c : result A) (k : A -> result B) : result B :=
  match c with
  | Ok a => k a
  | Err e => Err e
  end.

Notation "'let*' x ':=' c 'in' k" := (rbind c (fun x => k))
  (at level 10, x pattern, c at level 100, k at level 200).

(** [for (i = ...; ...; ++i) body] over the index list [l]. *)
Fixpoint forM {St : Type} (l : list Z) (body : Z -> St -> result St) (s : St) : result St :=
  match l with
  | [] => Ok s
  | i :: l' => let* s' := body i s in forM l' body s'
  end.

(** The indices [lo, lo+1, ..., hi-1]. *)
Definition range (lo hi : Z) : list Z := seqZ lo (hi - lo).

(** [v[i]] of a [std::vector]; reading outside it is undefined. *)
Definition vget {A} (v : list A) (i : Z) : result A :=
  if i <? 0 then Err Undefined
  else match v !! Z.to_nat i with
       | Some a => Ok a
       | None => Err Undefined
       end.

(** ** binary32 and binary64 arithmetic *)

Module F32.

Definition prec : Z := 24.
Definition emax : Z := 128.
Definition dprec : Z := 53.
Definition demax : Z := 1024.

Definition float : Type := spec_float.

Definition fadd : float -> float -> float := SFadd prec emax.
Definition fsub : float -> float -> float := SFsub prec emax.
Definition fmul : float -> float -> float := SFmul prec emax.
Definition fdiv : float -> float -> float := SFdiv prec emax.
Definition fopp : float -> float := SFopp.

(** Comparisons do not depend on the precision: promoting both sides to
    [double] is exact, so [a < 2.0] on a [float] is the same test. *)
Definition flt (a b : float) : bool := SFltb a b.
Definition fle (a b : float) : bool := SFleb a b.
Definition feq (a b : float) : bool := SFeqb a b.
Definition fgt (a b : float) : bool := SFltb b a.
Definition fge (a b : float) : bool := SFleb b a.

(** [(float) n] for an [int] n. *)
Definition of_int (n : Z) : float := binary_normalize prec emax n 0 false.

(** [double] operations and the conversions between the two formats. *)
Definition dmul : spec_float -> spec_float -> spec_float := SFmul dprec demax.
Definition dsub : spec_float -> spec_float -> spec_float := SFsub dprec demax.
Definition ddiv : spec_float -> spec_float -> spec_float := SFdiv dprec demax.
Definition d_of_int (n : Z) : spec_float := binary_normalize dprec demax n 0 false.
Definition to_double (f : float) : spec_float := f.
Definition to_float (d : spec_float) : float :=
  match d with
  | S754_finite s m e => binary_round prec emax s m e
  | _ => d
  end.

(** Decimal literals [n/d] with [n] and [d] exactly representable: the
    correctly rounded quotient is the literal's value. *)
Definition lit32 (n d : Z) : float := fdiv (of_int n) (of_int d).
Definition lit64 (n d : Z) : spec_float := ddiv (d_of_int n) (d_of_int d).

Definition zero : float := S754_zero false.
Definition one : float := Eval vm_compute in of_int 1.
Definition two : float := Eval vm_compute in of_int 2.

(** [template <class T> inline T abs(const T t) { return (t < 0) ? -t : t; }] *)
Definition abs (t : float) : float := if flt t (of_int 0) then fopp t else t.

(** [(int) f]: truncation toward zero; undefined when the truncated value
    is not an [int] (NaN, infinities, magnitudes of 2^31 and more). *)
Definition f2i (f : float) : result Z :=
  match f with
  | S754_zero _ => Ok 0
  | S754_finite s m e =>
      let mag := if 0 <=? e then Z.shiftl (Zpos m) e else Z.shiftr (Zpos m) (- e) in
      let v := if s then - mag else mag in
      if (- 2 ^ 31 <=? v) && (v <=? 2 ^ 31 - 1) then Ok v else Err Undefined
  | _ => Err Undefined
  end.

Definition is_nan (f : float) : bool :=
  match f with S754_nan => true | _ => false end.

Definition is_finite (f : float) : bool :=
  match f with S754_zero _ | S754_finite _ _ _ => true | _ => false end.

(** A well-formed binary32 datum. *)
Definition valid (f : float) : bool := valid_binary prec emax f.

End F32.
Import F32.

Arguments fadd : simpl never.
Arguments fsub : simpl never.
Arguments fmul : simpl never.
Arguments fdiv : simpl never.
Arguments flt : simpl never.
Arguments fle : simpl never.
Arguments feq : simpl never.
Arguments fgt : simpl never.
Arguments fge : simpl never.
Arguments of_int : simpl never.
Arguments to_float : simpl never.
Arguments f2i : simpl never.

(** ** The banded matrix *)

Module Banded.

(** Modelled from the spec: [BandedMatrix.h] is not part of the sources.
    The spec describes the store as a square matrix with a fixed
    half-bandwidth whose entries outside the band are implicitly zero; a
    write outside the band or outside the matrix leaves the store as it
    is. *)
Record MatrixT : Type := mkMatrix {
  dim : Z;
  bands : Z;
  cells : gmap (Z * Z) float
}.

Definition in_band (A : MatrixT) (i j : Z) : bool :=
  (0 <=? i) && (i <? dim A) && (0 <=? j) && (j <? dim A) &&
  (Z.abs (i - j) <=? bands A).

(** [matrix.setup (n, b)] *)
Definition setup (n b : Z) : MatrixT := mkMatrix n b ∅.

(** [A = 0.0] *)
Definition clear (A : MatrixT) : MatrixT := mkMatrix (dim A) (bands A) ∅.

(** [A[i][j]] read *)
Definition get (A : MatrixT) (i j : Z) : float :=
  if in_band A i j then default zero (cells A !! (i, j)) else zero.

(** [A[i][j] = v] *)
Definition set (A : MatrixT) (i j : Z) (v : float) : MatrixT :=
  if in_band A i j then mkMatrix (dim A) (bands A) (<[(i, j) := v]> (cells A)) else A.

Definition symmetric (A : MatrixT) : Prop :=
  forall i j, get A i j = get A j i.

End Banded.
Import Banded.

(** ** State of a [BSplineBase] *)

(** [struct BSplineBaseP]; the unused [solver] member is left out. *)
Record BSplineBaseP : Type := mkBaseP {
  Q : MatrixT;               (* holds P+Q *)
  LU : MatrixT;              (* LU factorization of P+Q *)
  index : list Z;
  X : list float;
  Nodes : list float
}.

(** The data members of [BSplineBase] (declared in [BSpline.h], which is not
    part of the sources; names and types as [BSpline.cpp] uses them). *)
Record BSplineBase : Type := mkBase {
  waveLength : float;
  NX : Z;
  K : Z;
  BC : Z;
  xmax : float;
  xmin : float;
  M : Z;
  DX : float;
  alpha : float;
  OK : bool;
  base : BSplineBaseP
}.

Definition with_Q (st : BSplineBase) (q : MatrixT) : BSplineBase :=
  let b := base st in
  mkBase (waveLength st) (NX st) (K st) (BC st) (xmax st) (xmin st) (M st) (DX st)
         (alpha st) (OK st) (mkBaseP q (LU b) (index b) (X b) (Nodes b)).

Definition with_LU (st : BSplineBase) (lu : MatrixT) (idx : list Z) : BSplineBase :=
  let b := base st in
  mkBase (waveLength st) (NX st) (K st) (BC st) (xmax st) (xmin st) (M st) (DX st)
         (alpha st) (OK st) (mkBaseP (Q b) lu idx (X b) (Nodes b)).

Definition with_X (st : BSplineBase) (x : list float) : BSplineBase :=
  let b := base st in
  mkBase (waveLength st) (NX st) (K st) (BC st) (xmax st) (xmin st) (M st) (DX st)
         (alpha st) (OK st) (mkBaseP (Q b) (LU b) (index b) x (Nodes b)).

Definition with_NX (st : BSplineBase) (n : Z) : BSplineBase :=
  mkBase (waveLength st) n (K st) (BC st) (xmax st) (xmin st) (M st) (DX st) (alpha st)
         (OK st) (base st).

Definition with_Nodes (st : BSplineBase) (ns : list float) : BSplineBase :=
  let b := base st in
  mkBase (waveLength st) (NX st) (K st) (BC st) (xmax st) (xmin st) (M st) (DX st)
         (alpha st) (OK st) (mkBaseP (Q b) (LU b) (index b) (X b) ns).

Definition with_OK (st : BSplineBase) (ok : bool) : BSplineBase :=
  mkBase (waveLength st) (NX st) (K st) (BC st) (xmax st) (xmin st) (M st) (DX st)
         (alpha st) ok (base st).

Definition with_domain (st : BSplineBase) (wl : float) (bc : Z) : BSplineBase :=
  mkBase wl (NX st) (K st) bc (xmax st) (xmin st) (M st) (DX st) (alpha st) (OK st) (base st).

Definition with_minmax (st : BSplineBase) (lo hi : float) : BSplineBase :=
  mkBase (waveLength st) (NX st) (K st) (BC st) hi lo (M st) (DX st) (alpha st) (OK st)
         (base st).

Definition with_grid (st : BSplineBase) (m : Z) (dx : float) : BSplineBase :=
  mkBase (waveLength st) (NX st) (K st) (BC st) (xmax st) (xmin st) m dx (alpha st) (OK st)
         (base st).

Definition with_alpha (st : BSplineBase) (a : float) : BSplineBase :=
  mkBase (waveLength st) (NX st) (K st) (BC st) (xmax st) (xmin st) (M st) (DX st) a (OK st)
         (base st).

(** ** Constant tables *)

(** [const float BSplineBase::BoundaryConditions[3][4]] *)
Definition BoundaryConditions : list (list float) :=
  [ [ of_int (-4); of_int (-1); of_int (-1); of_int (-4) ];
    [ of_int 0;    of_int 1;    of_int 1;    of_int 0 ];
    [ of_int 2;    of_int (-1); of_int (-1); of_int 2 ] ].

(** [const double BSplineBase::PI = 3.1415927] *)
Definition PI : spec_float := Eval vm_compute in lit64 31415927 10000000.

(** [static const float qparts[4][4]] of [qDelta] *)
Definition qparts : list (list float) :=
  Eval vm_compute in
  [ [ lit32 1125 10000; lit32 6375 10000; lit32 6375 10000;    lit32 1125 10000 ];
    [ zero;             lit32 13125 100000; lit32 (-54375) 100000; lit32 13125 100000 ];
    [ zero;             zero;             lit32 (-225) 1000;   lit32 (-225) 1000 ];
    [ zero;             zero;             zero;                lit32 (-1875) 100000 ] ].

Definition table_get (t : list (list float)) (r c : Z) : result float :=
  let* row := vget t r in vget row c.

(** ** The basis *)

(** [BSplineBase::Alpha] *)
Definition Alpha (st : BSplineBase) (wl : float) : float :=
  let a := to_float (ddiv (to_double wl) (dmul (d_of_int 2) PI)) in
  let a := fmul a a in
  if K st =? 2 then fmul a a
  else if K st =? 3 then fmul a (fmul a a)
  else a.

(** [BSplineBase::Beta] *)
Definition Beta (st : BSplineBase) (m : Z) : result float :=
  if (m >? 1) && (m <? M st - 1) then Ok zero
  else
    let m := if m >=? M st - 1 then m - (M st - 3) else m in
    if negb ((0 <=? BC st) && (BC st <=? 2)) then Err AssertFailed
    else if negb ((0 <=? m) && (m <=? 3)) then Err AssertFailed
    else table_get BoundaryConditions (BC st) m.

(** The cubic kernel of [Basis], before the boundary addend. *)
Definition Basis_kernel (st : BSplineBase) (m : Z) (x : float) : float :=
  let y := zero in
  let xm := fadd (xmin st) (fmul (of_int m) (DX st)) in
  let z := abs (fdiv (fsub x xm) (DX st)) in
  if flt z two then
    let z := fsub two z in
    let y := to_float (dmul (lit64 1 4) (to_double (fmul (fmul z z) z))) in
    let z := to_float (dsub (to_double z) (d_of_int 1)) in
    if fgt z (of_int 0) then fsub y (fmul (fmul z z) z) else y
  else y.

(** [BSplineBase::Basis]; the fuel bounds the depth of the recursion. *)
Fixpoint Basis (fuel : nat) (st : BSplineBase) (m : Z) (x : float) : result float :=
  match fuel with
  | O => Err OutOfFuel
  | S fuel' =>
      let y := Basis_kernel st m x in
      if (m =? 0) || (m =? 1) then
        let* b := Beta st m in
        let* g := Basis fuel' st (-1) x in
        Ok (fadd y (fmul b g))
      else if (m =? M st - 1) || (m =? M st) then
        let* b := Beta st m in
        let* g := Basis fuel' st (M st + 1) x in
        Ok (fadd y (fmul b g))
      else Ok y
  end.

(** ** The roughness matrix *)

(** The values of an [int]. *)
Definition is_int (z : Z) : Prop := - 2 ^ 31 <= z < 2 ^ 31.

(** The index pairs on which no step of [qDelta] leaves the range of
    [int]: the two indices, their difference [m2 - m1] once they are in
    ascending order, and the loop bounds [m1 - 2] and [m1 + 2]. *)
Definition qDelta_in_range (m1 m2 : Z) : Prop :=
  is_int m1 /\ is_int m2 /\
  is_int (Z.max m1 m2 - Z.min m1 m2) /\
  is_int (Z.min m1 m2 - 2) /\ is_int (Z.min m1 m2 + 2).

(** [BSplineBase::qDelta].  The index arithmetic is carried out in [Z], so
    the definition stands for the source on the pairs of [qDelta_in_range]
    only (every call that [calculateQ] makes on a grid with [M + 3] in
    [int] is one); on a pair such as [(-1, INT_MAX)] the source's
    [m2 - m1] overflows, which is undefined. *)
Definition qDelta (st : BSplineBase) (m1 m2 : Z) : result float :=
  let '(m1, m2) := if m1 >? m2 then (m2, m1) else (m1, m2) in
  if m2 - m1 >? 3 then Ok zero
  else
    let* q := forM (range (Z.max (m1 - 2) 0) (Z.min (m1 + 2) (M st)))
                (fun m q => let* p := table_get qparts (m2 - m1) (m - m1 + 2) in
                            Ok (fadd q p))
                zero in
    Ok (fmul (fmul q (DX st)) (alpha st)).

(** [Q[j][i] = (Q[i][j] += q)] *)
Definition add_mirror (A : MatrixT) (i j : Z) (q : float) : MatrixT :=
  let A := set A i j (fadd (get A i j) q) in
  set A j i (get A i j).

(** [BSplineBase::calculateQ] *)
Definition calculateQ (st : BSplineBase) : result BSplineBase :=
  let Q0 := clear (setup (M st + 1) 3) in
  if feq (alpha st) (of_int 0) then Ok (with_Q st Q0)
  else
    (* First fill in the q values without the boundary constraints. *)
    let* Q1 :=
      forM (range 0 (M st + 1))
        (fun i A =>
           let* d := qDelta st i i in
           let A := set A i i d in
           forM (range 1 (Z.min 4 (M st - i + 1)))
             (fun j A =>
                let* q := qDelta st i (i + j) in
                Ok (set (set A (i + j) i q) i (i + j) q))
             A)
        Q0 in
    (* Now add the boundary constraints: first the upper left corner. *)
    let* Q2 :=
      forM (range 0 2)
        (fun i A =>
           let* b1 := Beta st i in
           forM (range i (i + 4))
             (fun j A =>
                let* b2 := Beta st j in
                if negb ((j - i >=? 0) && (j - i <? 4)) then Err AssertFailed
                else
                  let q := zero in
                  let* q := if i + 1 <? 4
                            then let* d := qDelta st (-1) i in Ok (fadd q (fmul b2 d))
                            else Ok q in
                  let* q := if j + 1 <? 4
                            then let* d := qDelta st (-1) j in Ok (fadd q (fmul b1 d))
                            else Ok q in
                  let* d := qDelta st (-1) (-1) in
                  let q := fadd q (fmul (fmul b1 b2) d) in
                  Ok (add_mirror A i j q))
             A)
        Q1 in
    (* Then the lower right. *)
    let* Q3 :=
      forM (range (M st - 1) (M st + 1))
        (fun i A =>
           let* b1 := Beta st i in
           forM (range (i - 3) (i + 1))
             (fun j A =>
                let* b2 := Beta st j in
                let q := zero in
                let* q := if M st + 1 - i <? 4
                          then let* d := qDelta st i (M st + 1) in Ok (fadd q (fmul b2 d))
                          else Ok q in
                let* q := if M st + 1 - j <? 4
                          then let* d := qDelta st j (M st + 1) in Ok (fadd q (fmul b1 d))
                          else Ok q in
                let* d := qDelta st (M st + 1) (M st + 1) in
                let q := fadd q (fmul (fmul b1 b2) d) in
                Ok (add_mirror A i j q))
             A)
        Q2 in
    Ok (with_Q st Q3).

(** ** The data-fit contribution *)

(** [BSplineBase::addP].  The test [m <= min(M, m+2)] of the middle loop
    reads the running [m], so it holds exactly while [m <= M]. *)
Definition addP (fuel : nat) (st : BSplineBase) : result BSplineBase :=
  let* P :=
    forM (range 0 (NX st))
      (fun i P =>
         let* x := vget (X (base st)) i in
         let* m0 := f2i (fdiv (fsub x (xmin st)) (DX st)) in
         forM (range (Z.max 0 (m0 - 2)) (M st + 1))
           (fun m P =>
              let* pm := Basis fuel st m x in
              let sum := fmul pm pm in
              let P := set P m m (fadd (get P m m) sum) in
              forM (range (m + 1) (Z.min (M st) (m + 3) + 1))
                (fun n P =>
                   let* pm := Basis fuel st m x in
                   let* pn := Basis fuel st n x in
                   let sum := fmul pm pn in
                   let P := set P m n (fadd (get P m n) sum) in
                   Ok (set P n m (fadd (get P n m) sum)))
                P)
           P)
      (Q (base st)) in
  Ok (with_Q st P).

(** ** The node grid *)

(** [BSplineBase::Ratio]: the outputs [deltax], [ratiof], [*ratiod] and the
    returned flag. *)
Definition Ratio (st : BSplineBase) (ni : Z) : bool * float * float * float :=
  let deltax := fdiv (fsub (xmax st) (xmin st)) (of_int ni) in
  let ratiof := fdiv deltax (waveLength st) in
  let rd := fdiv (of_int (NX st)) (of_int (ni + 1)) in
  (fge rd one, deltax, ratiof, rd).

(** The scan of [Setup] for the minimum and maximum of the x domain. *)
Definition scan_domain (xs : list float) (n : Z) : result (float * float) :=
  let* x0 := vget xs 0 in
  forM (range 1 n)
    (fun i lohi =>
       let '(lo, hi) := lohi in
       let* xi := vget xs i in
       if flt xi lo then Ok (xi, hi)
       else if fgt xi hi then Ok (lo, xi)
       else Ok (lo, hi))
    (x0, x0).

(** First [do ... while (ratiof > fmin)] of [Setup]; [None] is the
    [return false] taken when [Ratio] fails. *)
Fixpoint coarse_search (fuel : nat) (st : BSplineBase) (ni : Z)
  : result (option (Z * float * float)) :=
  match fuel with
  | O => Err OutOfFuel
  | S fuel' =>
      let ni := ni + 1 in
      let '(ok, deltax, ratiof, _) := Ratio st ni in
      if negb ok then Ok None
      else if fgt ratiof two then coarse_search fuel' st ni
      else Ok (Some (ni, deltax, ratiof))
  end.

(** Second [do ... while (ratiof < 4 || ratiod > 2.0)] of [Setup]. *)
Fixpoint fine_search (fuel : nat) (st : BSplineBase) (ni : Z) : result (Z * float) :=
  match fuel with
  | O => Err OutOfFuel
  | S fuel' =>
      let ni := ni + 1 in
      let '(ok, deltax, ratiof, ratiod) := Ratio st ni in
      if negb ok || fgt ratiof (of_int 15) then
        let ni := ni - 1 in
        let '(_, deltax, _, _) := Ratio st ni in
        Ok (ni, deltax)
      else if flt ratiof (of_int 4) || fgt ratiod two then fine_search fuel' st ni
      else Ok (ni, deltax)
  end.

(** [BSplineBase::Setup] *)
Definition Setup (fuel : nat) (st : BSplineBase) : result (bool * BSplineBase) :=
  let* (lo, hi) := scan_domain (X (base st)) (NX st) in
  let st := with_minmax st lo hi in
  if fgt (waveLength st) (fsub (xmax st) (xmin st)) then Ok (false, st)
  else if feq (waveLength st) (of_int 0) then
    Ok (true, with_grid st (NX st) (fdiv (fsub (xmax st) (xmin st)) (of_int (NX st))))
  else
    let* r := coarse_search fuel st 9 in
    match r with
    | None => Ok (false, st)
    | Some (ni, _, _) =>
        let* (ni, deltax) := fine_search fuel st ni in
        Ok (true, with_grid st ni deltax)
    end.

(** [BSplineBase::nodes]: the cached node abscissae, filled on first use.
    [reserve] of a negative count throws and nothing catches it; the final
    [assert] compares the size of the cache with [(unsigned)(M+1)]. *)
Definition nodes (st : BSplineBase) : result (list float * BSplineBase) :=
  let ns := Nodes (base st) in
  let* ns :=
    if Z.of_nat (length ns) =? 0 then
      if M st + 1 <? 0 then Err Exited
      else Ok ((fun i => fadd (xmin st) (fmul (of_int i) (DX st))) <$> range 0 (M st + 1))
    else Ok ns in
  if negb (Z.of_nat (length ns) =? (M st + 1) mod 2 ^ 32) then Err AssertFailed
  else Ok (ns, with_Nodes st ns).

(** ** State of a [BSpline] *)

(** [struct BSplineP] *)
Record BSplineP : Type := mkSplineP {
  spline : list float;
  A : list float;
  A2 : list float
}.

(** A [BSpline] object: its [BSplineBase] part, [s] and [mean]. *)
Record BSpline : Type := mkSpline {
  bsb : BSplineBase;
  s : BSplineP;
  mean : float
}.

(** The copy constructor [BSplineBase (const BSplineBase &)]. *)
Definition BSplineBase_copy (bb : BSplineBase) : BSplineBase :=
  with_NX bb (Z.of_nat (length (X (base bb)))).

(** The mean of the data, as the constructor of [BSpline] accumulates it. *)
Definition data_mean (y : list float) (n : Z) : result float :=
  let* sum := forM (range 0 n) (fun i acc => let* yi := vget y i in Ok (fadd acc yi)) zero in
  Ok (fdiv sum (of_int n)).

(** The right-hand side [B] of the constructor of [BSpline]. *)
Definition rhs (fuel : nat) (st : BSplineBase) (y : list float) (mu : float)
  : result (list float) :=
  forM (range 0 (M st + 1))
    (fun m B =>
       let* sum :=
         forM (range 0 (NX st))
           (fun j sum =>
              let* yj := vget y j in
              let* xj := vget (X (base st)) j in
              let* b := Basis fuel st m xj in
              Ok (fadd sum (fmul (fsub yj mu) b)))
           zero in
       Ok (<[Z.to_nat m := sum]> B))
    (replicate (Z.to_nat (M st + 1)) zero).

Section Solver.

(** The banded LU routines of [BSplineLU.h], which is not part of the
    sources: each returns what it leaves in its reference arguments and its
    [int] status. *)
Variable LU_factor_banded : MatrixT -> list Z -> Z -> MatrixT * list Z * Z.
Variable LU_solve_banded : MatrixT -> list Z -> list float -> list float * Z.

(** [BSplineBase::factor] *)
Definition factor (st : BSplineBase) : bool * BSplineBase :=
  let idx := replicate (Z.to_nat (M st + 1)) 0 in
  let '(lu, idx, rc) := LU_factor_banded (Q (base st)) idx 3 in
  (rc =? 0, with_LU st lu idx).

(** [BSplineBase::setDomain]; [x] is [None] for a null pointer, else the
    array it points to. *)
Definition setDomain (fuel : nat) (st : BSplineBase)
           (x : option (list float)) (nx : Z) (wl : float) (bc : Z)
  : result (bool * BSplineBase) :=
  match x with
  | None => Ok (false, st)
  | Some arr =>
      if (nx <=? 0) || flt wl (of_int 0) || (bc <? 0) || (bc >? 2) then Ok (false, st)
      else
        let st := with_OK st false in
        let st := with_domain st wl bc in
        (* Copy the x array into our storage. *)
        if Z.of_nat (length arr) <? nx then Err Undefined
        else
          let st := with_X st (take (Z.to_nat nx) arr) in
          let st := with_NX st (Z.of_nat (length (X (base st)))) in
          let* (ok, st) := Setup fuel st in
          if ok then
            let st := with_alpha st (Alpha st (waveLength st)) in
            let* st := calculateQ st in
            let* st := addP fuel st in
            let '(ok, st) := factor st in
            if ok then Ok (true, with_OK st true) else Ok (OK st, st)
          else Ok (OK st, st)
  end.

(** The constructor [BSplineBase (x, nx, wl, bc)] over the storage [st]. *)
Definition BSplineBase_new (fuel : nat) (st : BSplineBase)
           (x : option (list float)) (nx : Z) (wl : float) (bc : Z)
  : result BSplineBase :=
  let st := mkBase (waveLength st) (NX st) 1 (BC st) (xmax st) (xmin st) (M st) (DX st)
                   (alpha st) false (mkBaseP (setup 0 3) (setup 0 3) [] [] []) in
  let* (_, st) := setDomain fuel st x nx wl bc in
  Ok st.

(** The constructor [BSpline (bb, y)]; [mean0] stands for the content of
    the member [mean] before it is assigned. *)
Definition BSpline_new (fuel : nat) (mean0 : float) (bb : BSplineBase) (y : list float)
  : result BSpline :=
  let st := BSplineBase_copy bb in
  let sp := mkSplineP [] [] [] in
  if negb (OK st) then Ok (mkSpline st sp mean0)
  else
    let* mu := data_mean y (NX st) in
    let* B := rhs fuel st y mu in
    let '(luA, rc) := LU_solve_banded (LU (base st)) (index (base st)) B in
    if negb (rc =? 0) then Err Exited
    else Ok (mkSpline st (mkSplineP [] luA []) mu).

End Solver.

(** [BSpline::coefficient] *)
Definition coefficient (sp : BSpline) (n : Z) : result float :=
  if OK (bsb sp) && ((0 <=? n) && (n <=? M (bsb sp))) then vget (A (s sp)) n
  else Ok (of_int 0).

(** [BSpline::evaluate] *)
Definition evaluate (fuel : nat) (sp : BSpline) (x : float) : result float :=
  let y := of_int 0 in
  if OK (bsb sp) then
    let* y := forM (range 0 (M (bsb sp) + 1))
                (fun i y =>
                   let* a := vget (A (s sp)) i in
                   let* b := Basis fuel (bsb sp) i x in
                   Ok (fadd y (fmul a b)))
                y in
    Ok (fadd y (mean sp))
  else Ok y.

(** [BSpline::curve]: [None] is the null pointer; otherwise the cached
    vector, whose size is what [*nx] receives. *)
Definition curve (fuel : nat) (sp : BSpline) : result (option (list float) * BSpline) :=
  if negb (OK (bsb sp)) then Ok (None, sp)
  else
    let st := bsb sp in
    let* spl :=
      if Z.of_nat (length (spline (s sp))) =? 0 then
        forM (range 0 (M st + 1))
          (fun n acc =>
             let x := fadd (xmin st) (fmul (of_int n) (DX st)) in
             let* v := evaluate fuel sp x in
             Ok (acc ++ [v]))
          (spline (s sp))
      else Ok (spline (s sp)) in
    Ok (Some spl, mkSpline st (mkSplineP spl (A (s sp)) (A2 (s sp))) (mean sp)).

(** [BSplineBase::apply] *)
Definition apply (LU_solve_banded : MatrixT -> list Z -> list float -> list float * Z)
           (fuel : nat) (mean0 : float) (st : BSplineBase) (y : list float)
  : result BSpline :=
  BSpline_new LU_solve_banded fuel mean0 st y.

(** [MatrixT &operator += (MatrixT &A, const MatrixT &B)]; the matrix is
    square, so [num_rows] and [num_cols] are both its dimension. *)
Definition matrix_add (A B : MatrixT) : result MatrixT :=
  let rows := dim A in
  let cols := dim A in
  if negb (rows =? dim B) then Err AssertFailed
  else if negb (cols =? dim B) then Err AssertFailed
  else
    forM (range 0 rows)
      (fun i C =>
         forM (range 0 cols)
           (fun j C => Ok (set C i j (fadd (get C i j) (get B i j))))
           C)
      A.

(** The state of [A] after the rows below [i] and the columns below [k] of
    row [i] have been added. *)
Definition added_upto (A0 B : MatrixT) (i k : Z) (C : MatrixT) : Prop :=
  dim C = dim A0 /\ bands C = bands A0 /\
  forall a b, get C a b =
              if ((a <? i) || ((a =? i) && (b <? k))) && in_band A0 a b
              then fadd (get A0 a b) (get B a b) else get A0 a b.

(** The state [setDomain] hands to [Setup] once its arguments are accepted. *)
Definition stored (st : BSplineBase) (arr : list float) (nx : Z) (wl : float) (bc : Z)
  : BSplineBase :=
  let st := with_domain (with_OK st false) wl bc in
  let st := with_X st (take (Z.to_nat nx) arr) in
  with_NX st (Z.of_nat (length (X (base st)))).

(** The sign a result carries unless it is NaN. *)
Definition has_sign (s : bool) (f : float) : Prop :=
  match f with
  | S754_nan => True
  | S754_zero s' | S754_infinity s' | S754_finite s' _ _ => s' = s
  end.

(** Every basis value at a node [0..M] and a sample of the domain is a
    finite number (neither infinite nor NaN). *)
Definition basis_finite_on (fuel : nat) (st : BSplineBase) : bool :=
  forallb
    (fun m =>
       forallb
         (fun x => match Basis fuel st m x with
                   | Ok b => is_finite b
                   | Err _ => true
                   end)
         (X (base st)))
    (range 0 (M st + 1)).

(** Every basis value at a node [0..M] and the abscissa [x] is a finite
    number. *)
Definition basis_finite_at (fuel : nat) (st : BSplineBase) (x : float) : bool :=
  forallb
    (fun m => match Basis fuel st m x with
              | Ok b => is_finite b
              | Err _ => false
              end)
    (range 0 (M st + 1)).

(** ** Sample data for running the model *)

(** A stand-in for the banded LU routines that reports success and leaves
    its arguments as they are; it only serves to run [setDomain] and the
    constructor of [BSpline] on concrete data. *)
Definition LU_accept (lu : MatrixT) (idx : list Z) (b : Z) : MatrixT * list Z * Z :=
  (lu, idx, 0).

Definition solve_accept (lu : MatrixT) (idx : list Z) (rhs : list float) : list float * Z :=
  (rhs, 0).

(** A freshly allocated [BSplineBase]. *)
Definition blank : BSplineBase :=
  mkBase zero 0 1 0 zero zero 0 zero zero false (mkBaseP (setup 0 3) (setup 0 3) [] [] []).

(** The samples [0, 1, ..., n-1]. *)
Definition ramp (n : Z) : list float := of_int <$> range 0 n.

(** What [setDomain] leaves behind, whatever it returns. *)
Definition state_after (r : result (bool * BSplineBase)) : BSplineBase :=
  match r with
  | Ok (_, st) => st
  | Err _ => blank
  end.

(** Twelve samples, cutoff wavelength 5, boundary type 2: a ready domain. *)
Definition ready12 : BSplineBase :=
  state_after (setDomain LU_accept 50 blank (Some (ramp 12)) 12 (of_int 5) 2).

(** Ten samples, no frequency constraint. *)
Definition ready10 : BSplineBase :=
  state_after (setDomain LU_accept 50 blank (Some (ramp 10)) 10 (of_int 0) 0).

(** The spec's degenerate scenario: five samples and a cutoff wavelength
    larger than their span; the domain is not ready, and neither is the
    spline built over it. *)
Definition unready5 : BSplineBase :=
  state_after (setDomain LU_accept 50 blank (Some (ramp 5)) 5 (of_int 10) 0).

Definition spline_unready5 : BSpline :=
  match BSpline_new solve_accept 5 zero unready5 (ramp 5) with
  | Ok sp => sp
  | Err _ => mkSpline blank (mkSplineP [] [] []) zero
  end.

(** Three samples, all equal to 7. *)
Definition flat3 : list float := [of_int 7; of_int 7; of_int 7].

(** The spline fitted to twelve samples all equal to 1 over [ready12]. *)
Definition spline_ones12 : BSpline :=
  match BSpline_new solve_accept 5 zero ready12 (replicate 12 (of_int 1)) with
  | Ok sp => sp
  | Err _ => mkSpline blank (mkSplineP [] [] []) zero
  end.

(** The spline fitted to twelve samples all equal to 0.1 over [ready12]. *)
Definition spline_tenths12 : BSpline :=
  match BSpline_new solve_accept 5 zero ready12 (replicate 12 (lit32 1 10)) with
  | Ok sp => sp
  | Err _ => mkSpline blank (mkSplineP [] [] []) zero
  end.

(** Its curve, and the object after the curve was asked for. *)
Definition curve_ones12 : option (list float) * BSpline :=
  match curve 5 spline_ones12 with
  | Ok p => p
  | Err _ => (None, spline_ones12)
  end.

(** [ready10] after a call of [nodes], and that object configured again
    with the twelve samples of [ready12]. *)
Definition noded10 : list float * BSplineBase :=
  match nodes ready10 with
  | Ok p => p
  | Err _ => ([], ready10)
  end.

Definition renoded12 : BSplineBase :=
  state_after (setDomain LU_accept 50 noded10.2 (Some (ramp 12)) 12 (of_int 5) 2).

(** * Properties *)

(** ** The outcome monad and loops *)

Lemma rbind_Ok {A B} (c : result A) (k : A -> result B) b :
  rbind c k = Ok b -> exists a, c = Ok a /\ k a = Ok b.
Proof. destruct c as [a|e]; simpl; [eauto | discriminate]. Qed.

Tactic Notation "inv_bind" hyp(H) "as" ident(a) ident(Ha) :=
  apply rbind_Ok in H; destruct H as (a & Ha & H).

(** Boolean integer tests in the hypotheses, as inequalities. *)
Ltac zbool :=
  repeat match goal with
  | H : (_ <=? _) = true |- _ => apply Z.leb_le in H
  | H : (_ <=? _) = false |- _ => apply Z.leb_gt in H
  | H : (_ <? _) = true |- _ => apply Z.ltb_lt in H
  | H : (_ <? _) = false |- _ => apply Z.ltb_ge in H
  | H : (_ >? _) = _ |- _ => rewrite Z.gtb_ltb in H
  | H : (_ >=? _) = _ |- _ => rewrite Z.geb_leb in H
  | H : (_ =? _) = true |- _ => apply Z.eqb_eq in H
  | H : (_ =? _) = false |- _ => apply Z.eqb_neq in H
  end.

Lemma forM_inv {St} (P : St -> Prop) (l : list Z) body (s s' : St) :
  P s ->
  (forall i s1 s2, i ∈ l -> P s1 -> body i s1 = Ok s2 -> P s2) ->
  forM l body s = Ok s' -> P s'.
Proof.
  revert s. induction l as [|i l IH]; simpl; intros s Hs Hstep Hrun.
  - congruence.
  - inv_bind Hrun as sm Hsm. eapply IH; [ | | exact Hrun].
    + eapply Hstep; [left | exact Hs | exact Hsm].
    + intros j s1 s2 Hj. apply Hstep. now right.
Qed.

Lemma forM_each {St} (l : list Z) body (s s' : St) :
  forM l body s = Ok s' ->
  forall i, i ∈ l -> exists s1 s2, body i s1 = Ok s2.
Proof.
  revert s. induction l as [|j l IH]; simpl; intros s Hrun i Hi.
  - inversion Hi.
  - inv_bind Hrun as sm Hsm. apply elem_of_cons in Hi as [->|Hi]; eauto.
Qed.

Lemma forM_total {St} (l : list Z) body (s : St) :
  (forall i s1, i ∈ l -> exists s2, body i s1 = Ok s2) ->
  exists s', forM l body s = Ok s'.
Proof.
  revert s. induction l as [|j l IH]; simpl; intros s Hb; [eauto|].
  destruct (Hb j s) as [s2 H2]; [left|]. rewrite H2. cbn [rbind].
  apply IH. intros i s1 Hi. apply Hb. now right.
Qed.

Lemma elem_of_range i lo hi : i ∈ range lo hi <-> lo <= i < hi.
Proof. unfold range. rewrite elem_of_seqZ. lia. Qed.

Lemma range_cons lo hi : lo < hi -> range lo hi = lo :: range (lo + 1) hi.
Proof.
  intros H. unfold range. rewrite seqZ_cons by lia.
  f_equal. f_equal; lia.
Qed.

Lemma range_nil lo hi : hi <= lo -> range lo hi = [].
Proof. intros H. unfold range. apply seqZ_nil. lia. Qed.

(** Loop invariant indexed by the running counter. *)
Lemma forM_range_inv {St} (P : Z -> St -> Prop) lo hi body (s s' : St) :
  lo <= hi -> P lo s ->
  (forall i s1 s2, lo <= i < hi -> P i s1 -> body i s1 = Ok s2 -> P (i + 1) s2) ->
  forM (range lo hi) body s = Ok s' -> P hi s'.
Proof.
  intros Hle. remember (Z.to_nat (hi - lo)) as n eqn:Hn.
  revert lo s Hle Hn. induction n as [|n IH]; intros lo s Hle Hn Hs Hstep Hrun.
  - assert (lo = hi) as -> by lia. rewrite range_nil in Hrun by lia.
    simpl in Hrun. congruence.
  - rewrite range_cons in Hrun by lia. simpl in Hrun. inv_bind Hrun as sm Hsm.
    eapply (IH (lo + 1)); [lia | lia | | | exact Hrun].
    + eapply Hstep; [lia | exact Hs | exact Hsm].
    + intros i s1 s2 Hi. apply Hstep. lia.
Qed.

Lemma vget_elem_of {A} (v : list A) i a : vget v i = Ok a -> a ∈ v.
Proof.
  unfold vget. destruct (i <? 0); [discriminate|].
  destruct (v !! Z.to_nat i) eqn:E; [|discriminate].
  intros [= <-]. eapply list_elem_of_lookup_2, E.
Qed.


Lemma vget_total {A} (v : list A) i :
  0 <= i < Z.of_nat (length v) -> exists a, vget v i = Ok a.
Proof.
  intros H. unfold vget. destruct (i <? 0) eqn:E0; [lia|].
  destruct (lookup_lt_is_Some_2 v (Z.to_nat i)) as [a Ha]; [lia|].
  rewrite Ha. eauto.
Qed.

Lemma elem_of_vget {A} (v : list A) a :
  a ∈ v -> exists i, 0 <= i < Z.of_nat (length v) /\ vget v i = Ok a.
Proof.
  intros H. apply list_elem_of_lookup_1 in H as [k Hk].
  exists (Z.of_nat k). pose proof (lookup_lt_Some _ _ _ Hk).
  split; [lia|]. unfold vget. destruct (Z.of_nat k <? 0) eqn:E; [lia|].
  rewrite Nat2Z.id, Hk. reflexivity.
Qed.

(** ** The banded store *)

Lemma in_band_sym A i j : in_band A i j = in_band A j i.
Proof.
  unfold in_band. replace (Z.abs (j - i)) with (Z.abs (i - j)) by lia.
  destruct (0 <=? i), (i <? dim A), (0 <=? j), (j <? dim A); reflexivity.
Qed.

Lemma in_band_set A a b v i j : in_band (set A a b v) i j = in_band A i j.
Proof. unfold set. destruct (in_band A a b); reflexivity. Qed.

Lemma get_set A a b v i j :
  get (set A a b v) i j =
  if in_band A a b && bool_decide ((a, b) = (i, j)) then v else get A i j.
Proof.
  unfold get. rewrite in_band_set. unfold set.
  destruct (in_band A a b) eqn:Hab; simpl; [|reflexivity].
  case_bool_decide as Heq.
  - inversion Heq; subst. rewrite Hab, lookup_insert_eq. reflexivity.
  - rewrite lookup_insert_ne by assumption. reflexivity.
Qed.


Lemma symmetric_clear A : symmetric (clear A).
Proof.
  intros i j. unfold get, clear; simpl.
  rewrite !lookup_empty. simpl. destruct (in_band _ i j), (in_band _ j i); reflexivity.
Qed.

Lemma symmetric_set_diag A m v : symmetric A -> symmetric (set A m m v).
Proof.
  intros HA i j. rewrite !get_set.
  destruct (in_band A m m); simpl; [|apply HA].
  repeat case_bool_decide; try apply HA; try reflexivity; congruence.
Qed.

Lemma symmetric_set_pair A a b v : symmetric A -> symmetric (set (set A a b v) b a v).
Proof.
  intros HA i j. rewrite !get_set, !in_band_set, (in_band_sym A b a).
  destruct (in_band A a b); simpl; [|apply HA].
  repeat case_bool_decide; try apply HA; try reflexivity; congruence.
Qed.

Lemma symmetric_add_mirror A i j q : symmetric A -> symmetric (add_mirror A i j q).
Proof.
  intros HA. unfold add_mirror. rewrite get_set.
  destruct (in_band A i j) eqn:Hb; simpl.
  - rewrite bool_decide_eq_true_2 by reflexivity. now apply symmetric_set_pair.
  - unfold set at 2. rewrite Hb. unfold set. rewrite (in_band_sym A j i), Hb. exact HA.
Qed.

Lemma symmetric_add_pair A m n v :
  symmetric A ->
  symmetric (let P := set A m n (fadd (get A m n) v) in set P n m (fadd (get P n m) v)).
Proof.
  intros HA. cbv zeta. rewrite get_set.
  destruct (in_band A m n) eqn:Hb; simpl.
  - case_bool_decide as Heq.
    + inversion Heq; subst. now apply symmetric_set_diag, symmetric_set_diag.
    + rewrite <- (HA m n). now apply symmetric_set_pair.
  - unfold set at 2. rewrite Hb. unfold set. rewrite (in_band_sym A n m), Hb. exact HA.
Qed.

(** ** Assembly of the system matrix *)

Lemma calculateQ_frame st st' :
  calculateQ st = Ok st' -> st' = with_Q st (Q (base st')).
Proof.
  unfold calculateQ. destruct (feq (alpha st) (of_int 0)).
  - now intros [= <-].
  - intros H. inv_bind H as Q1 HQ1. inv_bind H as Q2 HQ2. inv_bind H as Q3 HQ3.
    now injection H as <-.
Qed.

Lemma addP_frame fuel st st' :
  addP fuel st = Ok st' -> st' = with_Q st (Q (base st')).
Proof.
  unfold addP. intros H. inv_bind H as P HP. now injection H as <-.
Qed.

Lemma calculateQ_symmetric st st' :
  calculateQ st = Ok st' -> symmetric (Q (base st')).
Proof.
  unfold calculateQ. destruct (feq (alpha st) (of_int 0)).
  - intros [= <-]. apply symmetric_clear.
  - intros H.
    inv_bind H as Q1 HQ1. inv_bind H as Q2 HQ2. inv_bind H as Q3 HQ3.
    injection H as <-. cbn [with_Q base Q].
    assert (S1 : symmetric Q1).
    { revert HQ1. apply forM_inv; [apply symmetric_clear|].
      intros i A1 A2 _ HA1 Hb. inv_bind Hb as d Hd.
      revert Hb. apply forM_inv; [now apply symmetric_set_diag|].
      intros j B1 B2 _ HB1 Hb. inv_bind Hb as q Hq. injection Hb as <-.
      now apply symmetric_set_pair. }
    assert (S2 : symmetric Q2).
    { revert HQ2. apply forM_inv; [exact S1|].
      intros i A1 A2 _ HA1 Hb. inv_bind Hb as b1 Hb1.
      revert Hb. apply forM_inv; [exact HA1|].
      intros j B1 B2 _ HB1 Hb. inv_bind Hb as b2 Hb2.
      destruct (negb _); [discriminate|].
      inv_bind Hb as q1 Hq1. inv_bind Hb as q2 Hq2. inv_bind Hb as d Hd.
      injection Hb as <-. now apply symmetric_add_mirror. }
    revert HQ3. apply forM_inv; [exact S2|].
    intros i A1 A2 _ HA1 Hb. inv_bind Hb as b1 Hb1.
    revert Hb. apply forM_inv; [exact HA1|].
    intros j B1 B2 _ HB1 Hb. inv_bind Hb as b2 Hb2.
    inv_bind Hb as q1 Hq1. inv_bind Hb as q2 Hq2. inv_bind Hb as d Hd.
    injection Hb as <-. now apply symmetric_add_mirror.
Qed.

Lemma addP_symmetric fuel st st' :
  symmetric (Q (base st)) -> addP fuel st = Ok st' -> symmetric (Q (base st')).
Proof.
  intros HS H. unfold addP in H. inv_bind H as P HP. injection H as <-.
  cbn [with_Q base Q]. revert HP. apply forM_inv; [exact HS|].
  intros i A1 A2 _ HA1 Hb. inv_bind Hb as x Hx. inv_bind Hb as m0 Hm0.
  revert Hb. apply forM_inv; [exact HA1|].
  intros m B1 B2 _ HB1 Hb. inv_bind Hb as pm Hpm.
  revert Hb. apply forM_inv; [now apply symmetric_set_diag|].
  intros n C1 C2 _ HC1 Hb. inv_bind Hb as pm' Hpm'. inv_bind Hb as pn Hpn.
  injection Hb as <-. now apply (symmetric_add_pair C1 m n).
Qed.

(** ** Order and signs of binary32 values *)

Lemma cmp_cont_eq m n : Pos.compare_cont Eq m n = (Zpos m ?= Zpos n).
Proof. reflexivity. Qed.

Ltac cmp_cases :=
  repeat match goal with
  | |- context [Pos.compare_cont Eq ?m ?n] => rewrite (cmp_cont_eq m n)
  | H : context [Pos.compare_cont Eq ?m ?n] |- _ => rewrite (cmp_cont_eq m n) in H
  end;
  repeat match goal with
  | |- context [?a ?= ?b] => destruct (Z.compare_spec a b)
  | H : context [?a ?= ?b] |- _ => destruct (Z.compare_spec a b)
  end; simpl in *; try discriminate; try reflexivity; try lia.

Lemma flt_irrefl a : flt a a = false.
Proof.
  unfold flt, SFltb. destruct a as [[]|[]| |[] m e]; simpl; try reflexivity; cmp_cases.
Qed.

Lemma flt_trans a b c : flt a b = true -> flt b c = true -> flt a c = true.
Proof.
  unfold flt, SFltb.
  destruct a as [[]|[]| |[] ma ea], b as [[]|[]| |[] mb eb], c as [[]|[]| |[] mc ec];
    simpl; try discriminate; try reflexivity; intros H1 H2; cmp_cases.
Qed.

Lemma fle_of_not_flt a b :
  is_nan a = false -> is_nan b = false -> flt a b = false -> fle b a = true.
Proof.
  unfold flt, fle, SFltb, SFleb.
  destruct a as [[]|[]| |[] ma ea], b as [[]|[]| |[] mb eb];
    simpl; try discriminate; try reflexivity; intros _ _ H; cmp_cases.
Qed.

Lemma binary_round_aux_sign p em s m e l : has_sign s (binary_round_aux p em s m e l).
Proof.
  unfold binary_round_aux.
  destruct (shr_fexp p em m e l) as [mrs e'].
  destruct (shr_fexp p em _ e' loc_Exact) as [mrs' e''].
  destruct (shr_m mrs'); simpl; trivial.
  destruct (e'' <=? em - p); reflexivity.
Qed.

Lemma binary_round_sign p em s m e : has_sign s (binary_round p em s m e).
Proof.
  unfold binary_round. destruct (shl_align _ _ _). apply binary_round_aux_sign.
Qed.

Lemma binary_normalize_nonneg p em m e : 0 <= m -> has_sign false (binary_normalize p em m e false).
Proof.
  destruct m; simpl; intros; try reflexivity; [apply binary_round_sign | lia].
Qed.

Lemma iter_xO m d : Zpos (Pos.iter xO m d) = Zpos m * 2 ^ Zpos d.
Proof.
  revert m. induction d using Pos.peano_ind; intros m.
  - simpl. lia.
  - rewrite Pos.iter_succ, Pos2Z.inj_xO, IHd, Pos2Z.inj_succ, Z.pow_succ_r by lia. lia.
Qed.

Lemma shl_align_le m e e' :
  e' <= e -> Zpos (fst (shl_align m e e')) = Zpos m * 2 ^ (e - e').
Proof.
  intros H. unfold shl_align. destruct (e' - e) eqn:E; simpl.
  - replace (e - e') with 0 by lia. lia.
  - lia.
  - rewrite iter_xO. f_equal. f_equal. lia.
Qed.

Lemma digits2_bounds m :
  2 ^ (Zpos (digits2_pos m) - 1) <= Zpos m < 2 ^ Zpos (digits2_pos m).
Proof.
  induction m as [m IH|m IH|]; simpl digits2_pos.
  - rewrite Pos2Z.inj_succ. replace (Z.succ (Zpos (digits2_pos m)) - 1) with (Z.succ (Zpos (digits2_pos m) - 1)) by lia.
    rewrite !Z.pow_succ_r by lia. lia.
  - rewrite Pos2Z.inj_succ. replace (Z.succ (Zpos (digits2_pos m)) - 1) with (Z.succ (Zpos (digits2_pos m) - 1)) by lia.
    rewrite !Z.pow_succ_r by lia. lia.
  - simpl. lia.
Qed.

Lemma valid_finite s m e :
  valid (S754_finite s m e) = true ->
  Zpos (digits2_pos m) <= 24 /\ -149 <= e /\ (-149 < e -> Zpos (digits2_pos m) = 24).
Proof.
  unfold valid, valid_binary, bounded, canonical_mantissa, fexp, SpecFloat.emin, prec, emax.
  intros H. apply andb_true_iff in H as [H _]. apply Z.eqb_eq in H. lia.
Qed.

(** Among well-formed mantissas the larger exponent dominates. *)
Lemma valid_scale s1 m1 e1 s2 m2 e2 :
  valid (S754_finite s1 m1 e1) = true -> valid (S754_finite s2 m2 e2) = true ->
  e2 < e1 -> Zpos m2 < Zpos m1 * 2 ^ (e1 - e2).
Proof.
  intros V1 V2 He.
  apply valid_finite in V1 as (_ & _ & D1), V2 as (D2 & E2 & _).
  specialize (D1 ltac:(lia)).
  pose proof (digits2_bounds m1) as [L1 _]. pose proof (digits2_bounds m2) as [_ U2].
  rewrite D1 in L1.
  assert (2 ^ Zpos (digits2_pos m2) <= 2 ^ 24) by (apply Z.pow_le_mono_r; lia).
  assert (2 ^ 1 <= 2 ^ (e1 - e2)) by (apply Z.pow_le_mono_r; lia).
  change (2 ^ (24 - 1)) with 8388608 in L1. change (2 ^ 24) with 16777216 in *.
  change (2 ^ 1) with 2 in *. nia.
Qed.

Lemma has_sign_false_not_neg f : has_sign false f -> flt f zero = false.
Proof. destruct f as [[]|[]| |[] m e]; simpl; intros; try reflexivity; discriminate. Qed.

Lemma fsub_finite_not_neg sa ma ea sb mb eb :
  valid (S754_finite sa ma ea) = true -> valid (S754_finite sb mb eb) = true ->
  flt (S754_finite sa ma ea) (S754_finite sb mb eb) = false ->
  flt (fsub (S754_finite sa ma ea) (S754_finite sb mb eb)) zero = false.
Proof.
  intros Va Vb Hlt. apply has_sign_false_not_neg.
  unfold fsub, SFsub. apply binary_normalize_nonneg.
  unfold flt, SFltb in Hlt. simpl in Hlt. rewrite cmp_cont_eq in Hlt.
  revert Hlt. unfold cond_Zopp.
  destruct (Z.compare_spec ea eb) as [E|E|E]; intros Hlt.
  - subst eb. rewrite Z.min_id, !shl_align_le, Z.sub_diag, Z.pow_0_r by lia.
    destruct sa, sb; simpl in *; try discriminate;
      destruct (Pos.compare_spec ma mb); simpl in *; try discriminate; lia.
  - rewrite Z.min_l, !shl_align_le, Z.sub_diag, Z.pow_0_r by lia.
    pose proof (valid_scale _ _ _ _ _ _ Vb Va E).
    destruct sa, sb; simpl in *; try discriminate; lia.
  - rewrite Z.min_r, !shl_align_le, Z.sub_diag, Z.pow_0_r by lia.
    pose proof (valid_scale _ _ _ _ _ _ Va Vb E).
    destruct sa, sb; simpl in *; try discriminate; lia.
Qed.

Lemma fsub_ge_not_neg a b :
  valid a = true -> valid b = true -> flt a b = false -> flt (fsub a b) zero = false.
Proof.
  intros Va Vb.
  destruct a as [sa|sa| |sa ma ea], b as [sb|sb| |sb mb eb];
    try (now apply fsub_finite_not_neg);
    try destruct sa; try destruct sb; simpl; intros; first [reflexivity | discriminate].
Qed.

Lemma of_int_sign n : 0 <= n -> has_sign false (of_int n).
Proof. apply binary_normalize_nonneg. Qed.



Lemma fdiv_nonneg a b :
  flt a zero = false -> has_sign false b -> flt (fdiv a b) zero = false.
Proof.
  destruct a as [sa|sa| |sa ma ea], b as [sb|sb| |sb mb eb];
    try destruct sa; try destruct sb; simpl; intros Ha Hb;
    try reflexivity; try discriminate.
  apply has_sign_false_not_neg. unfold fdiv, SFdiv.
  destruct (SFdiv_core_binary _ _ _ _ _ _) as [[mz ez] lz].
  apply binary_round_aux_sign.
Qed.

Lemma positive_of_nonneg f :
  flt f zero = false -> is_nan f = false -> (forall s, f <> S754_zero s) ->
  flt zero f = true.
Proof.
  intros Hs Hn Hz.
  destruct f as [s|s| |s m e]; try destruct s;
    first [reflexivity | discriminate | exfalso; eapply Hz; reflexivity].
Qed.

Lemma feq_refl f : is_nan f = false -> feq f f = true.
Proof.
  unfold feq, SFeqb. destruct f as [[]|[]| |[] m e]; simpl; intros H;
    try reflexivity; try discriminate; rewrite Z.compare_refl, Pos.compare_cont_refl;
    reflexivity.
Qed.

(** A zero or NaN spacing makes the conversion [(int)((x - xmin) / DX)]
    undefined, whatever the sample. *)
Lemma f2i_div_degenerate a dx :
  (is_nan dx = true \/ exists s, dx = S754_zero s) -> f2i (fdiv a dx) = Err Undefined.
Proof.
  intros [H|[s ->]].
  - destruct dx; try discriminate. now destruct a.
  - now destruct a.
Qed.

Lemma f2i_div_sub_nan x lo dx : is_nan x = true -> f2i (fdiv (fsub x lo) dx) = Err Undefined.
Proof.
  destruct x; try discriminate. intros _. unfold fsub, SFsub.
  now destruct lo, dx.
Qed.

Lemma f2i_div_defined a dx m :
  f2i (fdiv a dx) = Ok m -> is_nan dx = false /\ forall s, dx <> S754_zero s.
Proof.
  intros H. split.
  - destruct (is_nan dx) eqn:E; [|reflexivity].
    rewrite f2i_div_degenerate in H by auto. discriminate.
  - intros s ->. rewrite f2i_div_degenerate in H by eauto. discriminate.
Qed.

Lemma f2i_div_sub_defined x lo dx m :
  f2i (fdiv (fsub x lo) dx) = Ok m -> is_nan x = false.
Proof.
  intros H. destruct (is_nan x) eqn:E; [|reflexivity].
  rewrite f2i_div_sub_nan in H by exact E. discriminate.
Qed.

(** ** The scan for the domain *)

Lemma not_flt_trans_l u xi lo :
  flt u lo = false -> flt xi lo = true -> flt u xi = false.
Proof.
  intros H1 H2. destruct (flt u xi) eqn:E; [|reflexivity].
  now rewrite (flt_trans _ _ _ E H2) in H1.
Qed.

Lemma not_flt_trans_r hi xi u :
  flt hi u = false -> flt hi xi = true -> flt xi u = false.
Proof.
  intros H1 H2. destruct (flt xi u) eqn:E; [|reflexivity].
  now rewrite (flt_trans _ _ _ H2 E) in H1.
Qed.

Lemma scan_domain_spec xs n lo hi :
  1 <= n -> scan_domain xs n = Ok (lo, hi) ->
  lo ∈ xs /\ hi ∈ xs /\ flt hi lo = false /\
  (forall i u, 0 <= i < n -> vget xs i = Ok u -> flt u lo = false /\ flt hi u = false).
Proof.
  intros Hn H. unfold scan_domain in H. inv_bind H as x0 Hx0.
  revert H.
  apply (forM_range_inv
           (fun k (p : float * float) =>
              p.1 ∈ xs /\ p.2 ∈ xs /\ flt p.2 p.1 = false /\
              (forall i u, 0 <= i < k -> vget xs i = Ok u ->
                           flt u p.1 = false /\ flt p.2 u = false))
           1 n _ (x0, x0) (lo, hi)); [exact Hn | |].
  - cbn [fst snd]. pose proof (vget_elem_of _ _ _ Hx0).
    repeat split; auto using flt_irrefl.
    all: assert (i = 0) as -> by lia; rewrite Hx0 in H1; injection H1 as <-;
      apply flt_irrefl.
  - intros i [l h] [l' h'] Hi (Hl & Hh & Hhl & Hall) Hb. cbn [fst snd] in *.
    inv_bind Hb as xi Hxi. pose proof (vget_elem_of _ _ _ Hxi) as Hin.
    assert (Hcase : forall j u, 0 <= j < i + 1 -> vget xs j = Ok u ->
                                u = xi \/ (flt u l = false /\ flt h u = false)).
    { intros j u Hj Hu. destruct (Z.eq_dec j i) as [->|Hne].
      - left. congruence.
      - right. apply (Hall j); [lia | exact Hu]. }
    change (fgt xi h) with (flt h xi) in Hb.
    destruct (flt xi l) eqn:E1; [|destruct (flt h xi) eqn:E2]; injection Hb as <- <-.
    + repeat split; auto.
      * destruct (flt h xi) eqn:E; [|reflexivity].
        now rewrite (flt_trans _ _ _ E E1) in Hhl.
      * destruct (Hcase _ _ H H0) as [->|[H1 _]]; [apply flt_irrefl|].
        eapply not_flt_trans_l; eauto.
      * destruct (Hcase _ _ H H0) as [->|[_ H2]]; [|exact H2].
        destruct (flt h xi) eqn:E; [|reflexivity].
        now rewrite (flt_trans _ _ _ E E1) in Hhl.
    + repeat split; auto.
      * destruct (Hcase _ _ H H0) as [->|[H1 _]]; [exact E1 | exact H1].
      * destruct (Hcase _ _ H H0) as [->|[_ H2]]; [apply flt_irrefl|].
        eapply not_flt_trans_r; eauto.
    + repeat split; auto.
      * destruct (Hcase _ _ H H0) as [->|[H1 _]]; [exact E1 | exact H1].
      * destruct (Hcase _ _ H H0) as [->|[_ H2]]; [exact E2 | exact H2].
Qed.

Lemma scan_domain_total xs n :
  1 <= n <= Z.of_nat (length xs) -> exists lo hi, scan_domain xs n = Ok (lo, hi).
Proof.
  intros Hn. unfold scan_domain.
  destruct (vget_total xs 0) as [x0 Hx0]; [lia|]. rewrite Hx0. cbn [rbind].
  assert (G : forall k lo p, 1 <= lo -> lo + Z.of_nat k <= Z.of_nat (length xs) ->
            exists q, forM (range lo (lo + Z.of_nat k))
              (fun i lohi => let '(lo, hi) := lohi in
                 let* xi := vget xs i in
                 if flt xi lo then Ok (xi, hi)
                 else if fgt xi hi then Ok (lo, xi) else Ok (lo, hi)) p = Ok q).
  { induction k as [|k IH]; intros lo p H1 H2.
    - rewrite range_nil by lia. simpl. eauto.
    - rewrite range_cons by lia. cbn [forM]. destruct p as [l h].
      destruct (vget_total xs lo) as [xi Hxi]; [lia|]. rewrite Hxi. cbn [rbind].
      replace (lo + Z.of_nat (S k)) with (lo + 1 + Z.of_nat k) by lia.
      destruct (flt xi l); [|destruct (fgt xi h)]; cbn [rbind]; apply IH; lia. }
  destruct (G (Z.to_nat (n - 1)) 1 (x0, x0)) as [[lo hi] Hq]; [lia | lia |].
  replace (1 + Z.of_nat (Z.to_nat (n - 1))) with n in Hq by lia.
  eauto.
Qed.

(** ** The node grid *)

Lemma coarse_search_ge fuel st n ni dx rf :
  coarse_search fuel st n = Ok (Some (ni, dx, rf)) -> n + 1 <= ni.
Proof.
  revert n. induction fuel as [|fuel IH]; simpl; intros n H; [discriminate|].
  destruct (negb _); [discriminate|].
  destruct (fgt _ two).
  - apply IH in H. lia.
  - injection H as <- _ _. lia.
Qed.

Lemma fine_search_spec fuel st n ni dx :
  fine_search fuel st n = Ok (ni, dx) ->
  n <= ni /\ dx = fdiv (fsub (xmax st) (xmin st)) (of_int ni).
Proof.
  revert n. induction fuel as [|fuel IH]; simpl; intros n H; [discriminate|].
  destruct (_ || fgt _ (of_int 15)).
  - injection H as <- <-. split; [lia|reflexivity].
  - destruct (_ || fgt _ two).
    + apply IH in H. split; [lia|]. apply H.
    + injection H as <- <-. split; [lia|reflexivity].
Qed.

(** What a successful [Setup] has stored. *)
Lemma Setup_true_inv fuel st st' :
  Setup fuel st = Ok (true, st') ->
  exists lo hi k,
    scan_domain (X (base st)) (NX st) = Ok (lo, hi) /\
    st' = with_grid (with_minmax st lo hi) k (fdiv (fsub hi lo) (of_int k)) /\
    fgt (waveLength st) (fsub hi lo) = false /\
    (feq (waveLength st) (of_int 0) = true /\ k = NX st \/
     feq (waveLength st) (of_int 0) = false /\ 10 <= k).
Proof.
  unfold Setup. intros H. inv_bind H as lohi Hscan. destruct lohi as [lo hi].
  cbn [with_minmax waveLength xmax xmin NX] in H.
  destruct (fgt (waveLength st) (fsub hi lo)) eqn:Espan; [discriminate|].
  destruct (feq (waveLength st) (of_int 0)) eqn:Ewl.
  - injection H as <-. exists lo, hi, (NX st). repeat split; auto.
  - inv_bind H as r Hr. destruct r as [[[ni dx] rf]|]; [|discriminate].
    inv_bind H as nd Hnd. destruct nd as [k dx']. injection H as <-.
    apply coarse_search_ge in Hr. apply fine_search_spec in Hnd as [Hk ->].
    exists lo, hi, k. repeat split; auto. right. split; [reflexivity | lia].
Qed.

Lemma Setup_OK fuel st b st' : Setup fuel st = Ok (b, st') -> OK st' = OK st.
Proof.
  unfold Setup. intros H. inv_bind H as lohi Hscan. destruct lohi as [lo hi].
  destruct (fgt _ _); [now injection H as <- <-|].
  destruct (feq _ _); [now injection H as <- <-|].
  inv_bind H as r Hr. destruct r as [[[ni dx] rf]|]; [|now injection H as <- <-].
  inv_bind H as nd Hnd. destruct nd as [k dx']. now injection H as <- <-.
Qed.

Section SolverFacts.

Variable LU_factor_banded : MatrixT -> list Z -> Z -> MatrixT * list Z * Z.

Lemma factor_frame st :
  snd (factor LU_factor_banded st) =
  with_LU st (LU (base (snd (factor LU_factor_banded st))))
             (index (base (snd (factor LU_factor_banded st)))).
Proof.
  unfold factor. destruct (LU_factor_banded _ _ _) as [[lu idx] rc]. reflexivity.
Qed.

(** The run behind a [setDomain] that returns [true]. *)
Lemma setDomain_true_inv fuel st x nx wl bc st' :
  setDomain LU_factor_banded fuel st x nx wl bc = Ok (true, st') ->
  exists arr stS stQ stP,
    x = Some arr /\ 0 < nx <= Z.of_nat (length arr) /\
    flt wl (of_int 0) = false /\ 0 <= bc <= 2 /\
    Setup fuel (stored st arr nx wl bc) = Ok (true, stS) /\
    calculateQ (with_alpha stS (Alpha stS (waveLength stS))) = Ok stQ /\
    addP fuel stQ = Ok stP /\
    fst (factor LU_factor_banded stP) = true /\
    st' = with_OK (snd (factor LU_factor_banded stP)) true.
Proof.
  unfold setDomain. destruct x as [arr|]; [|discriminate].
  destruct (nx <=? 0) eqn:E1; [discriminate|].
  destruct (flt wl (of_int 0)) eqn:E2; [discriminate|].
  destruct (bc <? 0) eqn:E3; [discriminate|].
  destruct (bc >? 2) eqn:E4; [discriminate|].
  cbn [orb]. destruct (Z.of_nat (length arr) <? nx) eqn:E5; [discriminate|].
  fold (stored st arr nx wl bc). intros H.
  inv_bind H as r HS. destruct r as [ok stS].
  pose proof (Setup_OK _ _ _ _ HS) as HOK. cbn in HOK.
  destruct ok; [|rewrite HOK in H; discriminate].
  inv_bind H as stQ HQ. inv_bind H as stP HP.
  destruct (factor LU_factor_banded stP) as [okF stF] eqn:EF.
  destruct okF.
  - injection H as <-. exists arr, stS, stQ, stP.
    zbool. rewrite EF. repeat split; auto; lia.
  - exfalso. injection H as H _.
    pose proof (factor_frame stP) as HF. rewrite EF in HF. cbn [snd] in HF.
    rewrite HF in H. cbn in H.
    rewrite (addP_frame _ _ _ HP), (calculateQ_frame _ _ HQ) in H. cbn in H.
    congruence.
Qed.

End SolverFacts.

(** ** What a ready domain holds *)

Lemma addP_samples_defined fuel st st' :
  addP fuel st = Ok st' ->
  forall i, 0 <= i < NX st ->
    exists u m0, vget (X (base st)) i = Ok u /\
                 f2i (fdiv (fsub u (xmin st)) (DX st)) = Ok m0.
Proof.
  unfold addP. intros H i Hi. inv_bind H as P HP.
  destruct (forM_each _ _ _ _ HP i) as (s1 & s2 & Hb).
  { apply elem_of_range. lia. }
  inv_bind Hb as u Hu. inv_bind Hb as m0 Hm0. eauto.
Qed.

Lemma ready_grid
  (LUf : MatrixT -> list Z -> Z -> MatrixT * list Z * Z) fuel st x nx wl bc st' :
  setDomain LUf fuel st x nx wl bc = Ok (true, st') ->
  exists arr lo hi k,
    x = Some arr /\ 0 < nx <= Z.of_nat (length arr) /\
    scan_domain (take (Z.to_nat nx) arr) nx = Ok (lo, hi) /\
    M st' = k /\ DX st' = fdiv (fsub hi lo) (of_int k) /\
    xmin st' = lo /\ xmax st' = hi /\ NX st' = nx /\
    X (base st') = take (Z.to_nat nx) arr /\
    (feq wl (of_int 0) = true /\ k = nx \/ feq wl (of_int 0) = false /\ 10 <= k) /\
    fgt wl (fsub hi lo) = false /\
    (forall i, 0 <= i < nx ->
       exists u m0, vget (take (Z.to_nat nx) arr) i = Ok u /\
                    f2i (fdiv (fsub u lo) (fdiv (fsub hi lo) (of_int k))) = Ok m0).
Proof.
  intros H.
  apply setDomain_true_inv in H
    as (arr & stS & stQ & stP & -> & Hn & Hw & Hb & HS & HQ & HP & _ & ->).
  apply Setup_true_inv in HS as (lo & hi & k & Hscan & -> & Hspan & Hk).
  assert (EN : NX (stored st arr nx wl bc) = nx).
  { cbn. rewrite length_take. lia. }
  change (X (base (stored st arr nx wl bc))) with (take (Z.to_nat nx) arr) in Hscan.
  change (waveLength (stored st arr nx wl bc)) with wl in Hspan, Hk.
  rewrite EN in Hscan, Hk.
  pose proof (addP_samples_defined _ _ _ HP) as Hdef.
  rewrite (calculateQ_frame _ _ HQ) in Hdef. cbn in Hdef.
  rewrite length_take in Hdef.
  rewrite factor_frame, (addP_frame _ _ _ HP), (calculateQ_frame _ _ HQ).
  exists arr, lo, hi, k. cbn. rewrite length_take.
  repeat split; auto; try lia.
  intros i Hi. apply Hdef. lia.
Qed.

(** ** Claims about the system matrix *)

(** C1. Whenever [setDomain] succeeds, the matrix built by [calculateQ]
    (roughness term with its boundary corrections) is symmetric, the matrix
    after [addP] has accumulated every sample is symmetric, and the latter
    is the system matrix the ready state holds: [Q[i][j]] and [Q[j][i]] are
    the same stored value for all i, j. *)
Theorem system_matrix_symmetric
  (LUf : MatrixT -> list Z -> Z -> MatrixT * list Z * Z)
  (fuel : nat) (st : BSplineBase) (x : option (list float)) (nx : Z) (wl : float)
  (bc : Z) (st' : BSplineBase) :
  setDomain LUf fuel st x nx wl bc = Ok (true, st') ->
  exists arr stS stQ stP,
    x = Some arr /\
    Setup fuel (stored st arr nx wl bc) = Ok (true, stS) /\
    calculateQ (with_alpha stS (Alpha stS (waveLength stS))) = Ok stQ /\
    symmetric (Q (base stQ)) /\
    addP fuel stQ = Ok stP /\
    symmetric (Q (base stP)) /\
    Q (base st') = Q (base stP) /\ M st' = M stP /\
    (forall i j, 0 <= i <= M st' -> 0 <= j <= M st' ->
                 get (Q (base st')) i j = get (Q (base st')) j i).
Proof.
  intros H.
  apply setDomain_true_inv in H
    as (arr & stS & stQ & stP & -> & _ & _ & _ & HS & HQ & HP & _ & ->).
  pose proof (calculateQ_symmetric _ _ HQ) as SQ.
  pose proof (addP_symmetric _ _ _ SQ HP) as SP.
  assert (EQ : Q (base (with_OK (factor LUf stP).2 true)) = Q (base stP)).
  { rewrite factor_frame. reflexivity. }
  exists arr, stS, stQ, stP.
  repeat split; auto.
  - rewrite factor_frame. reflexivity.
  - intros i j _ _. rewrite EQ. apply SP.
Qed.

Lemma system_matrix_symmetric_witness :
  exists arr stS stQ stP,
    Some (ramp 12) = Some arr /\
    Setup 50 (stored blank arr 12 (of_int 5) 2) = Ok (true, stS) /\
    calculateQ (with_alpha stS (Alpha stS (waveLength stS))) = Ok stQ /\
    symmetric (Q (base stQ)) /\
    addP 50 stQ = Ok stP /\
    symmetric (Q (base stP)) /\
    Q (base ready12) = Q (base stP) /\ M ready12 = M stP /\
    (forall i j, 0 <= i <= M ready12 -> 0 <= j <= M ready12 ->
                 get (Q (base ready12)) i j = get (Q (base ready12)) j i).
Proof.
  apply (system_matrix_symmetric LU_accept 50 blank (Some (ramp 12)) 12 (of_int 5) 2).
  vm_compute. reflexivity.
Defined.

Lemma qparts_total r c :
  0 <= r <= 3 -> 0 <= c <= 3 -> exists p, table_get qparts r c = Ok p.
Proof.
  intros Hr Hc.
  assert (r = 0 \/ r = 1 \/ r = 2 \/ r = 3) as [->|[->|[->| ->]]] by lia;
    assert (c = 0 \/ c = 1 \/ c = 2 \/ c = 3) as [->|[->|[->| ->]]] by lia;
    vm_compute; eauto.
Qed.

Lemma qDelta_total st m1 m2 : exists q, qDelta st m1 m2 = Ok q.
Proof.
  assert (G : forall a b, a <= b -> b - a <= 3 ->
            exists q, forM (range (Z.max (a - 2) 0) (Z.min (a + 2) (M st)))
              (fun m q => let* p := table_get qparts (b - a) (m - a + 2) in
                          Ok (fadd q p)) zero = Ok q).
  { intros a b Hab Hd. apply forM_total. intros i q Hi.
    apply elem_of_range in Hi.
    destruct (qparts_total (b - a) (i - a + 2)) as [p Hp]; [lia | lia |].
    rewrite Hp. cbn [rbind]. eauto. }
  unfold qDelta. destruct (m1 >? m2) eqn:E1; zbool.
  - destruct (m1 - m2 >? 3) eqn:E; [eauto|]. zbool.
    destruct (G m2 m1) as [q Hq]; [lia | lia |]. rewrite Hq. cbn [rbind]. eauto.
  - destruct (m2 - m1 >? 3) eqn:E; [eauto|]. zbool.
    destruct (G m1 m2) as [q Hq]; [lia | lia |]. rewrite Hq. cbn [rbind]. eauto.
Qed.

(** C8. On every pair of node indices whose index arithmetic stays within
    [int] (the ghost nodes [-1] and [M+1] included), [qDelta] returns a
    value; it does not depend on the order of its two node indices, and it
    is 0 whenever they are more than three nodes apart. *)
Theorem qDelta_symmetric_banded (st : BSplineBase) (m1 m2 : Z) :
  qDelta_in_range m1 m2 ->
  (exists q, qDelta st m1 m2 = Ok q) /\
  qDelta st m1 m2 = qDelta st m2 m1 /\
  (3 < Z.abs (m1 - m2) -> qDelta st m1 m2 = Ok zero).
Proof.
  intros _. split; [apply qDelta_total|].
  unfold qDelta. split.
  - destruct (m1 >? m2) eqn:E1, (m2 >? m1) eqn:E2; try reflexivity; zbool.
    + lia.
    + assert (m1 = m2) as -> by lia. reflexivity.
  - intros H. destruct (m1 >? m2) eqn:E1; zbool.
    + destruct (m1 - m2 >? 3) eqn:E; [reflexivity | zbool; lia].
    + destruct (m2 - m1 >? 3) eqn:E; [reflexivity | zbool; lia].
Qed.

(** The ghost node [-1] against the last node of [ready12]. *)
Lemma qDelta_symmetric_banded_witness :
  (exists q, qDelta ready12 (-1) (M ready12) = Ok q) /\
  qDelta ready12 (-1) (M ready12) = qDelta ready12 (M ready12) (-1) /\
  (3 < Z.abs (-1 - M ready12) -> qDelta ready12 (-1) (M ready12) = Ok zero).
Proof.
  apply (qDelta_symmetric_banded ready12 (-1) (M ready12)).
  unfold qDelta_in_range, is_int. vm_compute.
  repeat split; discriminate.
Defined.

(** ** Claims about the basis *)

Lemma Beta_not_out_of_fuel st m : Beta st m <> Err OutOfFuel.
Proof.
  unfold Beta. destruct (_ && _); [discriminate|].
  destruct (negb _); [discriminate|]. destruct (negb _); [discriminate|].
  unfold table_get, vget.
  destruct (BC st <? 0); [discriminate|].
  destruct (BoundaryConditions !! _); [|discriminate]. cbn [rbind].
  destruct (_ <? 0); [discriminate|]. destruct (_ !! _); discriminate.
Qed.

Lemma Basis_ghost_left fuel st x :
  1 <= M st -> Basis (S fuel) st (-1) x = Ok (Basis_kernel st (-1) x).
Proof.
  intros HM. cbn [Basis].
  destruct (-1 =? M st - 1) eqn:E1; [zbool; lia|].
  destruct (-1 =? M st) eqn:E2; [zbool; lia|]. reflexivity.
Qed.

Lemma Basis_ghost_right fuel st x :
  1 <= M st -> Basis (S fuel) st (M st + 1) x = Ok (Basis_kernel st (M st + 1) x).
Proof.
  intros HM. cbn [Basis].
  destruct (M st + 1 =? 0) eqn:E1; [zbool; lia|].
  destruct (M st + 1 =? 1) eqn:E2; [zbool; lia|].
  destruct (M st + 1 =? M st - 1) eqn:E3; [zbool; lia|].
  destruct (M st + 1 =? M st) eqn:E4; [zbool; lia|]. reflexivity.
Qed.

Lemma Basis_step fuel st m x :
  Basis (S fuel) st m x =
  if (m =? 0) || (m =? 1) then
    let* b := Beta st m in
    let* g := Basis fuel st (-1) x in
    Ok (fadd (Basis_kernel st m x) (fmul b g))
  else if (m =? M st - 1) || (m =? M st) then
    let* b := Beta st m in
    let* g := Basis fuel st (M st + 1) x in
    Ok (fadd (Basis_kernel st m x) (fmul b g))
  else Ok (Basis_kernel st m x).
Proof. reflexivity. Qed.

Lemma Basis_two st m x fuel :
  1 <= M st -> Basis (S (S fuel)) st m x = Basis 2 st m x.
Proof.
  intros HM. rewrite (Basis_step (S fuel)), (Basis_step 1).
  rewrite (Basis_ghost_left fuel), (Basis_ghost_left 0) by exact HM.
  rewrite (Basis_ghost_right fuel), (Basis_ghost_right 0) by exact HM.
  reflexivity.
Qed.

(** C10. With at least one node interval, [Basis] terminates for every node
    index and abscissa: its only recursive calls are at the ghost indices
    [-1] and [M+1], which return the kernel value without recursing again,
    so a recursion depth of one (fuel 2) is enough, and more fuel changes
    nothing. *)
Theorem Basis_terminates (st : BSplineBase) (m : Z) (x : float) :
  1 <= M st ->
  Basis 1 st (-1) x = Ok (Basis_kernel st (-1) x) /\
  Basis 1 st (M st + 1) x = Ok (Basis_kernel st (M st + 1) x) /\
  forall fuel, (2 <= fuel)%nat ->
    Basis fuel st m x <> Err OutOfFuel /\ Basis fuel st m x = Basis 2 st m x.
Proof.
  intros HM. split; [now apply Basis_ghost_left|]. split; [now apply Basis_ghost_right|].
  intros fuel Hf. destruct fuel as [|[|fuel]]; [lia | lia |].
  rewrite Basis_two by exact HM. split; [|reflexivity].
  rewrite (Basis_step 1).
  destruct ((m =? 0) || (m =? 1)).
  - pose proof (Beta_not_out_of_fuel st m) as HB.
    destruct (Beta st m) as [b|e]; [|exact HB].
    cbn [rbind]. rewrite (Basis_ghost_left 0) by exact HM. discriminate.
  - destruct ((m =? M st - 1) || (m =? M st)); [|discriminate].
    pose proof (Beta_not_out_of_fuel st m) as HB.
    destruct (Beta st m) as [b|e]; [|exact HB].
    cbn [rbind]. rewrite (Basis_ghost_right 0) by exact HM. discriminate.
Qed.

Lemma Basis_terminates_witness :
  1 <= M ready12 /\
  Basis 1 ready12 (-1) (of_int 3) = Ok (Basis_kernel ready12 (-1) (of_int 3)) /\
  Basis 1 ready12 (M ready12 + 1) (of_int 3)
    = Ok (Basis_kernel ready12 (M ready12 + 1) (of_int 3)) /\
  forall fuel, (2 <= fuel)%nat ->
    Basis fuel ready12 0 (of_int 3) <> Err OutOfFuel /\
    Basis fuel ready12 0 (of_int 3) = Basis 2 ready12 0 (of_int 3).
Proof.
  assert (H : 1 <= M ready12) by (vm_compute; discriminate).
  split; [exact H|]. exact (Basis_terminates ready12 0 (of_int 3) H).
Defined.

(** ** Claims about queries on a spline that is not ready *)

(** C9. On a spline whose domain is not ready, [evaluate] returns 0 for
    every abscissa, [coefficient] returns 0 for every index and [curve]
    returns the null pointer, each without failing and without touching the
    object. *)
Theorem not_ready_queries (fuel : nat) (sp : BSpline) :
  OK (bsb sp) = false ->
  (forall x, evaluate fuel sp x = Ok zero) /\
  (forall n, coefficient sp n = Ok zero) /\
  curve fuel sp = Ok (None, sp).
Proof.
  intros H. unfold evaluate, coefficient, curve. rewrite H. cbn [andb negb].
  repeat split.
Qed.

Lemma not_ready_queries_witness :
  OK (bsb spline_unready5) = false /\
  (forall x, evaluate 5 spline_unready5 x = Ok zero) /\
  (forall n, coefficient spline_unready5 n = Ok zero) /\
  curve 5 spline_unready5 = Ok (None, spline_unready5).
Proof.
  assert (H : OK (bsb spline_unready5) = false) by (vm_compute; reflexivity).
  split; [exact H|]. exact (not_ready_queries 5 spline_unready5 H).
Defined.

(** ** Claims about rejected calls *)

Section Rejection.

Variable LU_factor_banded : MatrixT -> list Z -> Z -> MatrixT * list Z * Z.

(** The first test of [setDomain]: the call returns [false] and the object
    is left exactly as it was. *)
Lemma setDomain_invalid fuel st x nx wl bc :
  nx <= 0 \/ x = None \/ flt wl (of_int 0) = true \/ bc < 0 \/ 2 < bc ->
  setDomain LU_factor_banded fuel st x nx wl bc = Ok (false, st).
Proof.
  intros H. unfold setDomain. destruct x as [arr|]; [|reflexivity].
  destruct (nx <=? 0) eqn:E1; [reflexivity|].
  destruct (flt wl (of_int 0)) eqn:E2; [reflexivity|].
  destruct (bc <? 0) eqn:E3; [reflexivity|].
  destruct (bc >? 2) eqn:E4; [reflexivity|].
  zbool. destruct H as [H|[H|[H|[H|H]]]]; first [lia | discriminate].
Qed.

Lemma setDomain_accepted fuel st arr nx wl bc :
  0 < nx <= Z.of_nat (length arr) -> flt wl (of_int 0) = false -> 0 <= bc <= 2 ->
  setDomain LU_factor_banded fuel st (Some arr) nx wl bc =
  let* (ok, st) := Setup fuel (stored st arr nx wl bc) in
  if ok then
    let st := with_alpha st (Alpha st (waveLength st)) in
    let* st := calculateQ st in
    let* st := addP fuel st in
    let '(ok, st) := factor LU_factor_banded st in
    if ok then Ok (true, with_OK st true) else Ok (OK st, st)
  else Ok (OK st, st).
Proof.
  intros Hn Hw Hb. unfold setDomain. rewrite Hw.
  destruct (nx <=? 0) eqn:E1; [zbool; lia|].
  destruct (bc <? 0) eqn:E3; [zbool; lia|].
  destruct (bc >? 2) eqn:E4; [zbool; lia|].
  destruct (Z.of_nat (length arr) <? nx) eqn:E5; [zbool; lia|].
  reflexivity.
Qed.

Lemma setDomain_span fuel st arr nx wl bc lo hi :
  0 < nx <= Z.of_nat (length arr) -> flt wl (of_int 0) = false -> 0 <= bc <= 2 ->
  scan_domain (take (Z.to_nat nx) arr) nx = Ok (lo, hi) ->
  fgt wl (fsub hi lo) = true ->
  setDomain LU_factor_banded fuel st (Some arr) nx wl bc =
  Ok (false, with_minmax (stored st arr nx wl bc) lo hi).
Proof.
  intros Hn Hw Hb Hscan Hspan. rewrite setDomain_accepted by assumption.
  unfold Setup.
  assert (EX : X (base (stored st arr nx wl bc)) = take (Z.to_nat nx) arr) by reflexivity.
  assert (EN : NX (stored st arr nx wl bc) = nx).
  { cbn. rewrite length_take. lia. }
  rewrite EX, EN, Hscan. cbn [rbind].
  cbn [with_minmax waveLength xmax xmin stored with_NX with_X with_domain with_OK].
  rewrite Hspan. reflexivity.
Qed.

End Rejection.

(** C3. [setDomain] returns [false] whenever the sample count is not
    positive, the sample pointer is null, the wavelength is negative or the
    boundary type lies outside 0..2; and, for arguments that pass these
    tests, whenever the wavelength exceeds the span [xmax - xmin] found by
    the scan of the samples (which always finds one). *)
Theorem setDomain_rejects
  (LUf : MatrixT -> list Z -> Z -> MatrixT * list Z * Z)
  (fuel : nat) (st : BSplineBase) (x : option (list float)) (nx : Z) (wl : float)
  (bc : Z) :
  (nx <= 0 \/ x = None \/ flt wl (of_int 0) = true \/ bc < 0 \/ 2 < bc ->
   setDomain LUf fuel st x nx wl bc = Ok (false, st)) /\
  (forall arr,
     x = Some arr -> 0 < nx <= Z.of_nat (length arr) ->
     flt wl (of_int 0) = false -> 0 <= bc <= 2 ->
     exists lo hi,
       scan_domain (take (Z.to_nat nx) arr) nx = Ok (lo, hi) /\
       (fgt wl (fsub hi lo) = true ->
        exists st', setDomain LUf fuel st x nx wl bc = Ok (false, st') /\
                    OK st' = false /\ xmin st' = lo /\ xmax st' = hi)).
Proof.
  split; [apply setDomain_invalid|].
  intros arr -> Hn Hw Hb.
  destruct (scan_domain_total (take (Z.to_nat nx) arr) nx) as (lo & hi & Hscan).
  { rewrite length_take. lia. }
  exists lo, hi. split; [exact Hscan|]. intros Hspan.
  eexists. split; [apply (setDomain_span LUf fuel st arr nx wl bc lo hi); assumption|].
  repeat split.
Qed.

(** The spec's degenerate scenario under C3: five samples 0..4 and
    wavelength 10. *)
Lemma setDomain_rejects_witness :
  setDomain LU_accept 50 ready12 None 12 (of_int 5) 2 = Ok (false, ready12) /\
  fgt (of_int 10) (fsub (of_int 4) zero) = true /\
  exists st', setDomain LU_accept 50 blank (Some (ramp 5)) 5 (of_int 10) 0
              = Ok (false, st') /\
              OK st' = false /\ xmin st' = zero /\ xmax st' = of_int 4.
Proof.
  split.
  { apply (proj1 (setDomain_rejects LU_accept 50 ready12 None 12 (of_int 5) 2)).
    right. left. reflexivity. }
  split; [vm_compute; reflexivity|].
  destruct (proj2 (setDomain_rejects LU_accept 50 blank (Some (ramp 5)) 5 (of_int 10) 0)
                  (ramp 5) eq_refl) as (lo & hi & Hscan & Hrej).
  all: try first [ lia | vm_compute; reflexivity
                 | vm_compute; split; [reflexivity | discriminate] ].
  vm_compute in Hscan. injection Hscan as <- <-.
  apply Hrej. vm_compute. reflexivity.
Defined.

(** C7 fails on the code: a call rejected by the first test of [setDomain]
    returns [false] before [OK] is cleared, so an object that was ready
    stays ready.  Here the ready domain [ready12] is asked to reconfigure
    with a sample count of 0. *)
Theorem rejected_call_keeps_ready :
  OK ready12 = true /\
  setDomain LU_accept 50 ready12 (Some (ramp 12)) 0 (of_int 5) 2 = Ok (false, ready12) /\
  OK (state_after (setDomain LU_accept 50 ready12 (Some (ramp 12)) 0 (of_int 5) 2)) = true.
Proof.
  assert (E : setDomain LU_accept 50 ready12 (Some (ramp 12)) 0 (of_int 5) 2
              = Ok (false, ready12)).
  { apply setDomain_invalid. left. lia. }
  rewrite E. repeat split. 
Qed.

(** ** Claims about the node grid *)

(** C2. A successful [setDomain] with wavelength 0 stores [M = NX] node
    intervals and the spacing [DX = (xmax - xmin) / NX] (one binary32
    subtraction and one division, as the source computes it), where [xmin]
    and [xmax] are samples and bound every sample from below and above. *)
Theorem zero_wavelength_grid
  (LUf : MatrixT -> list Z -> Z -> MatrixT * list Z * Z)
  (fuel : nat) (st : BSplineBase) (x : option (list float)) (nx : Z) (wl : float)
  (bc : Z) (st' : BSplineBase) :
  feq wl (of_int 0) = true ->
  setDomain LUf fuel st x nx wl bc = Ok (true, st') ->
  0 < nx /\ 0 <= bc <= 2 /\
  NX st' = nx /\ M st' = NX st' /\
  DX st' = fdiv (fsub (xmax st') (xmin st')) (of_int (NX st')) /\
  feq (DX st') (fdiv (fsub (xmax st') (xmin st')) (of_int (NX st'))) = true /\
  xmin st' ∈ X (base st') /\ xmax st' ∈ X (base st') /\
  (forall u, u ∈ X (base st') -> fle (xmin st') u = true /\ fle u (xmax st') = true).
Proof.
  intros Hwl H.
  pose proof (setDomain_true_inv _ _ _ _ _ _ _ _ H)
    as (_ & _ & _ & _ & _ & _ & _ & Hbc & _).
  apply ready_grid in H
    as (arr & lo & hi & k & -> & Hn & Hscan & HM & HDX & Hlo & Hhi & HNX & HX & Hk & _ & Hdef).
  destruct Hk as [[_ ->]|[Hk _]]; [|congruence].
  apply scan_domain_spec in Hscan as (Hlo_in & Hhi_in & _ & Hall); [|lia].
  rewrite HNX, HM, HDX, Hlo, Hhi, HX.
  assert (Hnan : forall u, u ∈ take (Z.to_nat nx) arr -> is_nan u = false).
  { intros u Hu. apply elem_of_vget in Hu as (i & Hi & Hget).
    rewrite length_take in Hi.
    destruct (Hdef i) as (u' & m0 & Hget' & Hm0); [lia|].
    rewrite Hget in Hget'. injection Hget' as <-.
    eapply f2i_div_sub_defined, Hm0. }
  destruct (Hdef 0) as (u0 & m0 & _ & Hm0); [lia|].
  apply f2i_div_defined in Hm0 as [HDXnan _].
  repeat split; auto using feq_refl; try lia.
  - apply elem_of_vget in H as (i & Hi & Hget). rewrite length_take in Hi.
    destruct (Hall i u) as [H1 _]; [lia | exact Hget |].
    apply fle_of_not_flt; auto. apply Hnan. eapply vget_elem_of, Hget.
  - apply elem_of_vget in H as (i & Hi & Hget). rewrite length_take in Hi.
    destruct (Hall i u) as [_ H2]; [lia | exact Hget |].
    apply fle_of_not_flt; auto. apply Hnan. eapply vget_elem_of, Hget.
Qed.

Lemma zero_wavelength_grid_witness :
  0 < 10 /\ 0 <= 0 <= 2 /\
  NX ready10 = 10 /\ M ready10 = NX ready10 /\
  DX ready10 = fdiv (fsub (xmax ready10) (xmin ready10)) (of_int (NX ready10)) /\
  feq (DX ready10) (fdiv (fsub (xmax ready10) (xmin ready10)) (of_int (NX ready10)))
    = true /\
  xmin ready10 ∈ X (base ready10) /\ xmax ready10 ∈ X (base ready10) /\
  (forall u, u ∈ X (base ready10) ->
             fle (xmin ready10) u = true /\ fle u (xmax ready10) = true).
Proof.
  apply (zero_wavelength_grid LU_accept 50 blank (Some (ramp 10)) 10 (of_int 0) 0).
  - vm_compute. reflexivity.
  - vm_compute. reflexivity.
Defined.

(** Every run of [setDomain] on well-formed binary32 samples that returns
    [true] without an undefined step leaves a grid of at least one node
    interval and a spacing above zero.  (The runs on samples that are all
    equal are not among them: see [equal_samples_break_grid_invariant].) *)
Theorem grid_invariant
  (LUf : MatrixT -> list Z -> Z -> MatrixT * list Z * Z)
  (fuel : nat) (st : BSplineBase) (x : option (list float)) (nx : Z) (wl : float)
  (bc : Z) (st' : BSplineBase) :
  (forall arr v, x = Some arr -> v ∈ take (Z.to_nat nx) arr -> valid v = true) ->
  setDomain LUf fuel st x nx wl bc = Ok (true, st') ->
  1 <= M st' /\ flt zero (DX st') = true.
Proof.
  intros Hvalid H.
  apply ready_grid in H
    as (arr & lo & hi & k & -> & Hn & Hscan & HM & HDX & _ & _ & _ & _ & Hk & _ & Hdef).
  apply scan_domain_spec in Hscan as (Hlo_in & Hhi_in & Hhl & _); [|lia].
  assert (Hk1 : 1 <= k) by (destruct Hk as [[_ ->]|[_ Hk]]; lia).
  rewrite HM, HDX. split; [exact Hk1|].
  destruct (Hdef 0) as (u0 & m0 & _ & Hm0); [lia|].
  apply f2i_div_defined in Hm0 as [Hnan Hzero].
  apply positive_of_nonneg; auto.
  apply fdiv_nonneg.
  - apply fsub_ge_not_neg; eauto.
  - apply of_int_sign. lia.
Qed.

Lemma grid_invariant_witness : 1 <= M ready12 /\ flt zero (DX ready12) = true.
Proof.
  apply (grid_invariant LU_accept 50 blank (Some (ramp 12)) 12 (of_int 5) 2).
  - intros arr v [= <-] Hv.
    assert (F : forallb valid (take (Z.to_nat 12) (ramp 12)) = true)
      by (vm_compute; reflexivity).
    rewrite forallb_forall in F. apply F, list_elem_of_In, Hv.
  - vm_compute. reflexivity.
Defined.

(** ** Claims about fitting constant data *)

Lemma fsub_self c : is_finite c = true -> fsub c c = zero.
Proof.
  destruct c as [[]|[]| |sc m e]; try discriminate; try reflexivity.
  intros _. unfold fsub, SFsub. rewrite Z.min_id.
  unfold shl_align. rewrite !Z.sub_diag. reflexivity.
Qed.

Lemma fadd_zero_product b : is_finite b = true -> fadd zero (fmul zero b) = zero.
Proof. destruct b as [[]|[]| |[] m e]; try discriminate; reflexivity. Qed.

Lemma basis_finite_on_spec fuel st m x b :
  basis_finite_on fuel st = true ->
  0 <= m <= M st -> x ∈ X (base st) -> Basis fuel st m x = Ok b -> is_finite b = true.
Proof.
  unfold basis_finite_on. rewrite forallb_forall. intros H Hm Hx Hb.
  specialize (H m). rewrite forallb_forall in H.
  assert (Hin : In m (range 0 (M st + 1))).
  { apply list_elem_of_In, elem_of_range. lia. }
  specialize (H Hin x (proj1 (list_elem_of_In _ _) Hx)). now rewrite Hb in H.
Qed.

(** With a residual of zero at every sample, the right-hand side is zero. *)
Lemma rhs_constant fuel st y c B :
  is_finite c = true ->
  basis_finite_on fuel st = true ->
  (forall j, 0 <= j < NX st -> vget y j = Ok c) ->
  rhs fuel st y c = Ok B -> B = replicate (Z.to_nat (M st + 1)) zero.
Proof.
  intros Hc Hfin Hy. unfold rhs.
  apply (forM_inv (fun B => B = replicate (Z.to_nat (M st + 1)) zero)); [reflexivity|].
  intros m B1 B2 Hm -> Hb. apply elem_of_range in Hm.
  inv_bind Hb as sum Hsum. injection Hb as <-.
  assert (sum = zero) as ->.
  { revert Hsum. apply (forM_inv (fun sum => sum = zero)); [reflexivity|].
    intros j s1 s2 Hj -> Hb. apply elem_of_range in Hj.
    inv_bind Hb as yj Hyj. inv_bind Hb as xj Hxj. inv_bind Hb as b Hbas.
    injection Hb as <-. rewrite Hy in Hyj by lia. injection Hyj as <-.
    rewrite fsub_self by exact Hc. apply fadd_zero_product.
    eapply basis_finite_on_spec; eauto; [lia|]. eapply vget_elem_of, Hxj. }
  apply list_insert_id, lookup_replicate_2. lia.
Qed.

(** C4, as the code has it.  The mean of a constant data vector is the
    binary32 running sum divided by the sample count, which need not be the
    constant.  When it is, and the constant and the basis values at the
    samples are finite, the right-hand side handed to the band solver is
    all zero; the coefficients are the solver's answer to it, hence all zero
    for a solver that answers the zero right-hand side with zero. *)
Theorem constant_fit
  (LUs : MatrixT -> list Z -> list float -> list float * Z)
  (fuel : nat) (mean0 : float) (bb : BSplineBase) (c : float) (sp : BSpline) :
  let n := Z.of_nat (length (X (base bb))) in
  let y := replicate (Z.to_nat n) c in
  let zeros := replicate (Z.to_nat (M bb + 1)) zero in
  OK bb = true ->
  is_finite c = true ->
  data_mean y n = Ok c ->
  basis_finite_on fuel (BSplineBase_copy bb) = true ->
  BSpline_new LUs fuel mean0 bb y = Ok sp ->
  mean sp = c /\
  rhs fuel (bsb sp) y (mean sp) = Ok zeros /\
  A (s sp) = (LUs (LU (base bb)) (index (base bb)) zeros).1 /\
  ((LUs (LU (base bb)) (index (base bb)) zeros).1 = zeros ->
   forall k, coefficient sp k = Ok zero).
Proof.
  intros n y zeros HOK Hc Hmean Hfin H. unfold BSpline_new in H.
  change (OK (BSplineBase_copy bb)) with (OK bb) in H. rewrite HOK in H. cbn [negb] in H.
  change (NX (BSplineBase_copy bb)) with n in H. rewrite Hmean in H. cbn [rbind] in H.
  inv_bind H as B HB.
  assert (B = zeros) as ->.
  { apply (rhs_constant fuel (BSplineBase_copy bb) y c B Hc Hfin); [|exact HB].
    intros j Hj. change (NX (BSplineBase_copy bb)) with n in Hj.
    unfold vget. destruct (j <? 0) eqn:E; [zbool; lia|].
    unfold y. rewrite lookup_replicate_2 by lia. reflexivity. }
  change (LU (base (BSplineBase_copy bb))) with (LU (base bb)) in H.
  change (index (base (BSplineBase_copy bb))) with (index (base bb)) in H.
  destruct (LUs (LU (base bb)) (index (base bb)) zeros) as [luA rc] eqn:ES.
  destruct (negb (rc =? 0)); [discriminate|]. injection H as <-.
  cbn [mean bsb s A fst]. repeat split; auto.
  intros -> k. unfold coefficient. cbn [bsb s A].
  change (OK (BSplineBase_copy bb)) with (OK bb). rewrite HOK. cbn [andb].
  change (M (BSplineBase_copy bb)) with (M bb).
  destruct ((0 <=? k) && (k <=? M bb)) eqn:E; [|reflexivity].
  apply andb_true_iff in E as [E1 E2]. zbool.
  unfold vget. destruct (k <? 0) eqn:E; [zbool; lia|].
  unfold zeros. rewrite lookup_replicate_2 by lia. reflexivity.
Qed.

Lemma constant_fit_witness :
  mean spline_ones12 = of_int 1 /\
  rhs 5 (bsb spline_ones12) (replicate 12 (of_int 1)) (mean spline_ones12)
    = Ok (replicate 12 zero) /\
  A (s spline_ones12) = replicate 12 zero /\
  forall k, coefficient spline_ones12 k = Ok zero.
Proof.
  destruct (constant_fit solve_accept 5 zero ready12 (of_int 1) spline_ones12)
    as (H1 & H2 & H3 & H4); try (vm_compute; reflexivity).
  split; [exact H1|]. split; [exact H2|]. split; [exact H3|].
  apply H4. reflexivity.
Defined.

(** C4 does not hold as stated: twelve samples all equal to 0.1 over the
    ready domain [ready12] have a binary32 mean different from 0.1, the
    residuals are not zero and neither is the right-hand side. *)
Lemma constant_fit_counterexample :
  OK ready12 = true /\
  BSpline_new solve_accept 5 zero ready12 (replicate 12 (lit32 1 10))
    = Ok spline_tenths12 /\
  feq (mean spline_tenths12) (lit32 1 10) = false /\
  mean spline_tenths12 <> lit32 1 10 /\
  rhs 5 ready12 (replicate 12 (lit32 1 10)) (mean spline_tenths12)
    <> Ok (replicate 12 zero) /\
  coefficient spline_tenths12 0 <> Ok zero.
Proof.
  split; [vm_compute; reflexivity|].
  split; [vm_compute; reflexivity|].
  split; [vm_compute; reflexivity|].
  split; [vm_compute; discriminate|].
  split; vm_compute; discriminate.
Qed.

(** ** Claims about the grid search *)

(** The first candidate of the search is [ni = 10]: with fewer samples than
    its eleven nodes, [Ratio] fails and so does [Setup]. *)
Lemma Setup_too_sparse fuel st lo hi :
  scan_domain (X (base st)) (NX st) = Ok (lo, hi) ->
  fgt (waveLength st) (fsub hi lo) = false ->
  feq (waveLength st) (of_int 0) = false ->
  fge (fdiv (of_int (NX st)) (of_int 11)) one = false ->
  Setup (S fuel) st = Ok (false, with_minmax st lo hi).
Proof.
  intros Hscan Hspan Hwl Hrd. unfold Setup. rewrite Hscan. cbn [rbind].
  cbn [with_minmax waveLength xmax xmin NX]. rewrite Hspan, Hwl.
  cbn [coarse_search Ratio with_minmax NX]. change (9 + 1 + 1) with 11.
  rewrite Hrd. reflexivity.
Qed.

(** C5, as the code has it.  For the samples 0, 1, ..., 9 with wavelength
    3.0 and boundary type 0, [setDomain] returns [false] and leaves the
    domain not ready, whatever the object held before and whatever the LU
    routine: the grid search starts at ten node intervals, and ten samples
    over eleven nodes fail the density test of [Ratio] (10/11 < 1). *)
Theorem sparse_scenario_rejected
  (LUf : MatrixT -> list Z -> Z -> MatrixT * list Z * Z)
  (fuel : nat) (st : BSplineBase) :
  fge (fdiv (of_int 10) (of_int (9 + 1 + 1))) one = false /\
  exists st',
    setDomain LUf (S fuel) st (Some (ramp 10)) 10 (of_int 3) 0 = Ok (false, st') /\
    OK st' = false.
Proof.
  split; [vm_compute; reflexivity|].
  exists (with_minmax (stored st (ramp 10) 10 (of_int 3) 0) zero (of_int 9)).
  split; [|reflexivity].
  rewrite setDomain_accepted; [| vm_compute; split; [reflexivity | discriminate]
                               | vm_compute; reflexivity | lia].
  rewrite (Setup_too_sparse fuel _ zero (of_int 9)); [reflexivity | | | |];
    vm_compute; reflexivity.
Qed.

(** C5 does not hold as stated: on that input [setDomain] does not succeed,
    even with an LU routine that accepts every matrix. *)
Lemma sparse_scenario_counterexample :
  ~ exists st',
      setDomain LU_accept 50 blank (Some (ramp 10)) 10 (of_int 3) 0 = Ok (true, st') /\
      9 <= M st'.
Proof.
  intros (st' & H & _). vm_compute in H. discriminate H.
Qed.

(** ** Further properties of the code *)

(** The test of the middle loop of [addP] is the test [m <= M]. *)
Lemma addP_middle_test (m Mx : Z) : (m <=? Z.min Mx (m + 2)) = (m <=? Mx).
Proof.
  destruct (m <=? Mx) eqn:E; zbool.
  - apply Z.leb_le. lia.
  - apply Z.leb_gt. lia.
Qed.

(** [Beta] is 0 at every interior node, for every boundary type. *)
Theorem Beta_interior (st : BSplineBase) (m : Z) :
  1 < m < M st - 1 -> Beta st m = Ok zero.
Proof.
  intros H. unfold Beta.
  destruct (m >? 1) eqn:E1; [|zbool; lia].
  destruct (m <? M st - 1) eqn:E2; [|zbool; lia]. reflexivity.
Qed.

Lemma Beta_interior_witness : 1 < 5 < M ready12 - 1 /\ Beta ready12 5 = Ok zero.
Proof.
  assert (H : 1 < 5 < M ready12 - 1) by (vm_compute; split; reflexivity).
  split; [exact H|]. exact (Beta_interior ready12 5 H).
Defined.

(** With a nonzero wavelength a ready grid has at least ten node intervals
    and the spacing [(xmax - xmin) / M]. *)
Theorem nonzero_wavelength_grid
  (LUf : MatrixT -> list Z -> Z -> MatrixT * list Z * Z)
  (fuel : nat) (st : BSplineBase) (x : option (list float)) (nx : Z) (wl : float)
  (bc : Z) (st' : BSplineBase) :
  feq wl (of_int 0) = false ->
  setDomain LUf fuel st x nx wl bc = Ok (true, st') ->
  10 <= M st' /\ DX st' = fdiv (fsub (xmax st') (xmin st')) (of_int (M st')).
Proof.
  intros Hwl H.
  apply ready_grid in H
    as (arr & lo & hi & k & -> & Hn & Hscan & HM & HDX & Hlo & Hhi & _ & _ & Hk & _).
  destruct Hk as [[Hk _]|[_ Hk]]; [congruence|].
  rewrite HM, HDX, Hlo, Hhi. auto.
Qed.

Lemma nonzero_wavelength_grid_witness :
  10 <= M ready12 /\
  DX ready12 = fdiv (fsub (xmax ready12) (xmin ready12)) (of_int (M ready12)).
Proof.
  apply (nonzero_wavelength_grid LU_accept 50 blank (Some (ramp 12)) 12 (of_int 5) 2);
    vm_compute; reflexivity.
Defined.

(** With no node interval at all the recursion of [Basis] at node 0 never
    produces a value: it walks 0, -1, 1 and stops at the assertion of
    [Beta], or runs out of fuel before. *)
Theorem Basis_needs_an_interval (fuel : nat) (st : BSplineBase) (x : float) :
  M st = 0 -> exists e, Basis fuel st 0 x = Err e.
Proof.
  intros HM.
  assert (HB : exists e, Beta st 1 = Err e).
  { unfold Beta. rewrite HM. change ((1 >? 1) && (1 <? 0 - 1)) with false.
    cbv iota. change (1 >=? 0 - 1) with true. cbv iota.
    destruct (negb _); [eauto|]. change (1 - (0 - 3)) with 4.
    change (negb ((0 <=? 4) && (4 <=? 3))) with true. eauto. }
  destruct HB as [e1 HB].
  destruct fuel as [|fuel]; [simpl; eauto|]. rewrite Basis_step.
  change ((0 =? 0) || (0 =? 1)) with true. cbv iota.
  destruct (Beta st 0); cbn [rbind]; [|eauto].
  destruct fuel as [|fuel]; [simpl; eauto|]. rewrite Basis_step, HM.
  change ((-1 =? 0) || (-1 =? 1)) with false.
  change ((-1 =? 0 - 1) || (-1 =? 0)) with true. cbv iota.
  destruct (Beta st (-1)); cbn [rbind]; [|eauto].
  destruct fuel as [|fuel]; [simpl; eauto|]. rewrite Basis_step.
  change ((0 + 1 =? 0) || (0 + 1 =? 1)) with true. cbv iota.
  change (0 + 1) with 1. rewrite HB. cbn [rbind]. eauto.
Qed.

Lemma Basis_needs_an_interval_witness :
  exists e, Basis 7 (with_grid blank 0 one) 0 (of_int 3) = Err e.
Proof. exact (Basis_needs_an_interval 7 (with_grid blank 0 one) (of_int 3) eq_refl). Defined.

(** Calling [curve] a second time returns the same result and leaves the
    object as the first call left it. *)
Theorem curve_idempotent (fuel : nat) (sp : BSpline) (r : option (list float))
        (sp' : BSpline) :
  curve fuel sp = Ok (r, sp') -> curve fuel sp' = Ok (r, sp').
Proof.
  destruct sp as [st [spl0 A0 A20] mean0]. unfold curve. cbn [bsb s spline A A2 mean].
  destruct (OK st) eqn:HOK; cbn [negb].
  - intros H. inv_bind H as spl Hspl. injection H as <- <-.
    cbn [bsb s spline A A2 mean]. rewrite HOK. cbn [negb].
    destruct (Z.of_nat (length spl) =? 0) eqn:E2.
    + zbool. destruct spl; [|discriminate].
      destruct (Z.of_nat (length spl0) =? 0) eqn:E1.
      * zbool. destruct spl0; [|discriminate].
        unfold evaluate in *. cbn [bsb s spline A A2 mean] in *.
        rewrite Hspl. reflexivity.
      * injection Hspl as ->. discriminate.
    + reflexivity.
  - intros [= <- <-]. cbn [bsb]. rewrite HOK. reflexivity.
Qed.

Lemma curve_idempotent_witness :
  curve 5 spline_ones12 = Ok (curve_ones12.1, curve_ones12.2) /\
  curve 5 curve_ones12.2 = Ok (curve_ones12.1, curve_ones12.2).
Proof.
  assert (E : curve 5 spline_ones12 = Ok (curve_ones12.1, curve_ones12.2))
    by (vm_compute; reflexivity).
  split; [exact E|].
  exact (curve_idempotent 5 spline_ones12 _ _ E).
Defined.

(** ** Where a run can stop *)

Lemma rbind_Err {A B} (c : result A) (k : A -> result B) e :
  rbind c k = Err e -> c = Err e \/ exists a, c = Ok a /\ k a = Err e.
Proof. destruct c as [a|e']; simpl; [eauto | intros [= ->]; auto]. Qed.

Lemma forM_err {St} (P : error -> Prop) (l : list Z) body (s : St) e :
  (forall i s1 e, i ∈ l -> body i s1 = Err e -> P e) ->
  forM l body s = Err e -> P e.
Proof.
  revert s. induction l as [|i l IH]; simpl; intros s Hb H; [discriminate|].
  apply rbind_Err in H as [H|(sm & _ & H)].
  - eapply Hb; [left | exact H].
  - eapply IH; [|exact H]. intros j s1 e1 Hj. apply Hb. now right.
Qed.

Lemma vget_err {A} (v : list A) i e : vget v i = Err e -> e = Undefined.
Proof.
  unfold vget. destruct (i <? 0); [congruence|].
  destruct (v !! Z.to_nat i); congruence.
Qed.

Lemma f2i_err f e : f2i f = Err e -> e = Undefined.
Proof.
  unfold f2i. destruct f as [s|s| |s m e0]; try congruence.
  destruct (_ && _); congruence.
Qed.

Lemma scan_domain_err xs n e : scan_domain xs n = Err e -> e = Undefined.
Proof.
  unfold scan_domain. intros H.
  apply rbind_Err in H as [H|(x0 & _ & H)]; [eapply vget_err, H|].
  revert H. apply (forM_err (fun e => e = Undefined)). intros i [lo hi] e1 _ H.
  apply rbind_Err in H as [H|(xi & _ & H)]; [eapply vget_err, H|].
  destruct (flt xi lo); [discriminate|]. destruct (fgt xi hi); discriminate.
Qed.

Lemma coarse_search_err fuel st n e : coarse_search fuel st n = Err e -> e = OutOfFuel.
Proof.
  revert n. induction fuel as [|fuel IH]; simpl; intros n H; [congruence|].
  destruct (negb _); [discriminate|].
  destruct (fgt _ two); [eapply IH, H | discriminate].
Qed.

Lemma fine_search_err fuel st n e : fine_search fuel st n = Err e -> e = OutOfFuel.
Proof.
  revert n. induction fuel as [|fuel IH]; simpl; intros n H; [congruence|].
  destruct (_ || fgt _ (of_int 15)); [discriminate|].
  destruct (_ || fgt _ two); [eapply IH, H | discriminate].
Qed.

Lemma Setup_err fuel st e : Setup fuel st = Err e -> e = Undefined \/ e = OutOfFuel.
Proof.
  unfold Setup. intros H.
  apply rbind_Err in H as [H|([lo hi] & _ & H)]; [left; eapply scan_domain_err, H|].
  destruct (fgt _ _); [discriminate|]. destruct (feq _ _); [discriminate|].
  apply rbind_Err in H as [H|(r & _ & H)]; [right; eapply coarse_search_err, H|].
  destruct r as [[[ni dx] rf]|]; [|discriminate].
  apply rbind_Err in H as [H|([k dx'] & _ & H)]; [right; eapply fine_search_err, H|].
  discriminate.
Qed.

(** ** [abs] and [Alpha] *)

(** [abs] at [float]: the result is never below 0, and applying [abs]
    twice is the same as applying it once. *)
Theorem abs_not_negative (t : float) :
  flt (abs t) (of_int 0) = false /\ abs (abs t) = abs t.
Proof. destruct t as [[]|[]| |[] m e]; split; reflexivity. Qed.

Lemma feq_zero_inv wl : feq wl (of_int 0) = true -> exists s, wl = S754_zero s.
Proof. destruct wl as [s|[]| |[] m e]; try discriminate; eauto. Qed.

Lemma fmul_sign a b s t :
  has_sign s a -> has_sign t b -> has_sign (xorb s t) (fmul a b).
Proof.
  destruct a as [sa|sa| |sa ma ea], b as [sb|sb| |sb mb eb]; simpl;
    intros Ha Hb; subst; trivial.
  apply binary_round_aux_sign.
Qed.

Lemma fmul_self_sign a : has_sign false (fmul a a).
Proof.
  destruct a as [sa|sa| |sa ma ea]; simpl; trivial; try apply xorb_nilpotent.
  unfold fmul, SFmul. rewrite xorb_nilpotent. apply binary_round_aux_sign.
Qed.

(** [Alpha] is never negative, whatever the wavelength and the order [K]
    of the derivative constraint: each of its three forms is a product of
    squares of one binary32 value.  (It can be NaN, which is not below 0
    either.) *)
Theorem Alpha_not_negative (st : BSplineBase) (wl : float) :
  flt (Alpha st wl) zero = false.
Proof.
  apply has_sign_false_not_neg. unfold Alpha.
  set (a := to_float _). pose proof (fmul_self_sign a) as H.
  destruct (K st =? 2); [apply fmul_self_sign|].
  destruct (K st =? 3); [|exact H].
  apply (fmul_sign _ _ false false H). apply fmul_self_sign.
Qed.

Lemma Alpha_zero (st : BSplineBase) (wl : float) :
  feq wl (of_int 0) = true -> Alpha st wl = zero.
Proof.
  intros H. apply feq_zero_inv in H as [s ->]. unfold Alpha.
  destruct (K st =? 2), (K st =? 3), s; vm_compute; reflexivity.
Qed.

Lemma get_clear A i j : get (clear A) i j = zero.
Proof. unfold get, clear. cbn. rewrite lookup_empty. now destruct (in_band _ _ _). Qed.

(** A wavelength of zero turns the roughness penalty off: [Alpha] is then
    +0 for every [K], and [calculateQ] returns at its first test with a
    matrix of [M+1] rows that is zero everywhere, without reaching [Beta] or
    its assertions, whatever [M] and the boundary type. *)
Theorem zero_wavelength_no_penalty (st : BSplineBase) (wl : float) :
  feq wl (of_int 0) = true ->
  exists st',
    calculateQ (with_alpha st (Alpha st wl)) = Ok st' /\
    alpha st' = zero /\ dim (Q (base st')) = M st + 1 /\
    forall i j, get (Q (base st')) i j = zero.
Proof.
  intros Hwl. rewrite (Alpha_zero _ _ Hwl). unfold calculateQ.
  cbn [with_alpha alpha]. change (feq zero (of_int 0)) with true. cbv iota.
  eexists. split; [reflexivity|]. cbn [with_Q alpha base Q M].
  repeat split. intros i j. apply get_clear.
Qed.

Lemma zero_wavelength_no_penalty_witness :
  exists st',
    calculateQ (with_alpha ready10 (Alpha ready10 zero)) = Ok st' /\
    alpha st' = zero /\ dim (Q (base st')) = M ready10 + 1 /\
    forall i j, get (Q (base st')) i j = zero.
Proof. apply (zero_wavelength_no_penalty ready10 zero). reflexivity. Defined.

(** ** [Beta] on and off the grid *)

Lemma BoundaryConditions_total bc k :
  0 <= bc <= 2 -> 0 <= k <= 3 ->
  exists b, table_get BoundaryConditions bc k = Ok b /\ is_finite b = true /\
            table_get BoundaryConditions bc (3 - k) = Ok b.
Proof.
  intros Hb Hk.
  assert (bc = 0 \/ bc = 1 \/ bc = 2) as [->|[->| ->]] by lia;
    assert (k = 0 \/ k = 1 \/ k = 2 \/ k = 3) as [->|[->|[->| ->]]] by lia;
    vm_compute; eauto.
Qed.

(** The index of [BoundaryConditions] that [Beta] reads at an edge node. *)
Lemma Beta_edge st m :
  ((m >? 1) && (m <? M st - 1)) = false ->
  0 <= BC st <= 2 ->
  let k := if m >=? M st - 1 then m - (M st - 3) else m in
  0 <= k <= 3 ->
  Beta st m = table_get BoundaryConditions (BC st) k.
Proof.
  intros Hint Hbc k Hk. unfold Beta. rewrite Hint. fold k.
  destruct (0 <=? BC st) eqn:E1; [|zbool; lia].
  destruct (BC st <=? 2) eqn:E2; [|zbool; lia].
  destruct (0 <=? k) eqn:E3; [|zbool; lia].
  destruct (k <=? 3) eqn:E4; [|zbool; lia]. reflexivity.
Qed.

Lemma Beta_nodes_total st m :
  1 <= M st -> 0 <= BC st <= 2 -> 0 <= m <= M st ->
  exists b, Beta st m = Ok b /\ is_finite b = true.
Proof.
  intros HM Hbc Hm.
  destruct ((m >? 1) && (m <? M st - 1)) eqn:E.
  - exists zero. unfold Beta. rewrite E. auto.
  - assert (Hk : 0 <= (if m >=? M st - 1 then m - (M st - 3) else m) <= 3).
    { destruct (m >=? M st - 1) eqn:E1; zbool; [lia|].
      apply andb_false_iff in E as [E|E]; zbool; lia. }
    rewrite (Beta_edge st m E Hbc Hk).
    destruct (BoundaryConditions_total (BC st) _ Hbc Hk) as (b & Hb & Hf & _). eauto.
Qed.

Lemma Beta_outside st m :
  3 <= M st -> m < 0 \/ M st < m -> Beta st m = Err AssertFailed.
Proof.
  intros HM Hm. unfold Beta.
  destruct ((m >? 1) && (m <? M st - 1)) eqn:E.
  { apply andb_true_iff in E as [E1 E2]. zbool. lia. }
  destruct (negb ((0 <=? BC st) && (BC st <=? 2))); [reflexivity|].
  destruct (negb _) eqn:E2; [reflexivity|].
  apply negb_false_iff, andb_true_iff in E2 as [A B].
  destruct (m >=? M st - 1) eqn:X6; zbool; lia.
Qed.

Lemma Beta_err st m e : Beta st m = Err e -> e = AssertFailed.
Proof.
  unfold Beta. destruct (_ && _); [discriminate|].
  destruct (negb ((0 <=? BC st) && (BC st <=? 2))) eqn:E1; [congruence|].
  apply negb_false_iff, andb_true_iff in E1 as [A1 A2].
  destruct (negb _) eqn:E2; [congruence|].
  apply negb_false_iff, andb_true_iff in E2 as [B1 B2]. zbool.
  destruct (BoundaryConditions_total (BC st)
              (if m >=? M st - 1 then m - (M st - 3) else m)) as (b & Hb & _);
    [lia | lia |].
  rewrite Hb. discriminate.
Qed.

Lemma Beta_Ok_le st m b : Beta st m = Ok b -> m <= M st.
Proof.
  unfold Beta. destruct ((m >? 1) && (m <? M st - 1)) eqn:E.
  - intros _. apply andb_true_iff in E as [E1 E2]. zbool. lia.
  - destruct (negb _); [discriminate|].
    destruct (m >=? M st - 1) eqn:E1.
    + destruct (negb _) eqn:E2; [discriminate|]. intros _.
      apply negb_false_iff, andb_true_iff in E2 as [E2 E3]. zbool. lia.
    + intros _. zbool. lia.
Qed.

(** With at least three node intervals and a valid boundary type, [Beta]
    returns a value exactly at the node indices [0..M]; at every other
    index its assertion [0 <= m && m <= 3] fails. *)
Theorem Beta_defined_on_nodes (st : BSplineBase) (m : Z) :
  3 <= M st -> 0 <= BC st <= 2 ->
  ((exists b, Beta st m = Ok b) <-> 0 <= m <= M st).
Proof.
  intros HM Hbc. split.
  - intros [b Hb].
    destruct (Z.lt_ge_cases m 0) as [H|H]; [rewrite Beta_outside in Hb by lia; discriminate|].
    destruct (Z.lt_ge_cases (M st) m) as [H'|H']; [rewrite Beta_outside in Hb by lia; discriminate|].
    lia.
  - intros Hm. destruct (Beta_nodes_total st m) as (b & Hb & _); eauto; lia.
Qed.

Lemma Beta_defined_on_nodes_witness :
  (exists b, Beta ready12 11 = Ok b) <-> 0 <= 11 <= M ready12.
Proof.
  apply (Beta_defined_on_nodes ready12 11); vm_compute; first [discriminate | split; discriminate].
Defined.

(** With at least three node intervals [Beta] takes the same value at the
    nodes [m] and [M - m]: the boundary rows are read from one end as from
    the other. *)
Theorem Beta_mirror (st : BSplineBase) (m : Z) :
  3 <= M st -> 0 <= BC st <= 2 -> Beta st (M st - m) = Beta st m.
Proof.
  intros HM Hbc.
  destruct (Z.lt_ge_cases m 0) as [Hneg|Hpos]; [|destruct (Z.lt_ge_cases (M st) m) as [Hbig|Hle]].
  - rewrite !Beta_outside by lia. reflexivity.
  - rewrite !Beta_outside by lia. reflexivity.
  - destruct ((m >? 1) && (m <? M st - 1)) eqn:E.
    + assert (E' : ((M st - m >? 1) && (M st - m <? M st - 1)) = true).
      { apply andb_true_iff in E as [E1 E2]. zbool.
        apply andb_true_iff. split; [rewrite Z.gtb_ltb|]; apply Z.ltb_lt; lia. }
      unfold Beta. rewrite E, E'. reflexivity.
    + assert (E' : ((M st - m >? 1) && (M st - m <? M st - 1)) = false).
      { apply andb_false_iff in E as [E|E]; zbool; apply andb_false_iff;
          [right | left; rewrite Z.gtb_ltb]; apply Z.ltb_ge; lia. }
      assert (Hk : 0 <= (if m >=? M st - 1 then m - (M st - 3) else m) <= 3).
      { destruct (m >=? M st - 1) eqn:E1; zbool; [lia|].
        apply andb_false_iff in E as [E|E]; zbool; lia. }
      assert (Hk' : 0 <= (if M st - m >=? M st - 1 then M st - m - (M st - 3) else M st - m) <= 3).
      { destruct (M st - m >=? M st - 1) eqn:E1; zbool; [lia|].
        apply andb_false_iff in E' as [E'|E']; zbool; lia. }
      rewrite (Beta_edge st m E Hbc Hk), (Beta_edge st _ E' Hbc Hk').
      destruct (BoundaryConditions_total (BC st) _ Hbc Hk) as (b & Hb & _ & Hb').
      rewrite Hb, <- Hb'. f_equal.
      destruct (m >=? M st - 1) eqn:E1, (M st - m >=? M st - 1) eqn:E2; zbool; try lia.
Qed.

Lemma Beta_mirror_witness : Beta ready12 (M ready12 - 1) = Beta ready12 1.
Proof.
  apply (Beta_mirror ready12 1); vm_compute; first [discriminate | split; discriminate].
Defined.

(** ** [Basis] with enough fuel *)

(** With at least one node interval and a valid boundary type, [Basis] can
    only stop for lack of fuel. *)
Lemma Basis_err fuel st m x e :
  1 <= M st -> 0 <= BC st <= 2 -> Basis fuel st m x = Err e -> e = OutOfFuel.
Proof.
  intros HM Hbc. destruct fuel as [|fuel]; [simpl; congruence|].
  rewrite Basis_step.
  destruct ((m =? 0) || (m =? 1)) eqn:E1.
  - destruct (Beta_nodes_total st m) as (b & Hb & _); [lia | lia | |].
    { apply orb_true_iff in E1 as [E|E]; zbool; lia. }
    rewrite Hb. cbn [rbind].
    destruct fuel as [|fuel]; [simpl; congruence|].
    rewrite Basis_ghost_left by exact HM. discriminate.
  - destruct ((m =? M st - 1) || (m =? M st)) eqn:E2; [|discriminate].
    destruct (Beta_nodes_total st m) as (b & Hb & _); [lia | lia | |].
    { apply orb_true_iff in E2 as [E|E]; zbool; lia. }
    rewrite Hb. cbn [rbind].
    destruct fuel as [|fuel]; [simpl; congruence|].
    rewrite Basis_ghost_right by exact HM. discriminate.
Qed.

Lemma Basis_total fuel st m x :
  1 <= M st -> 0 <= BC st <= 2 -> (2 <= fuel)%nat -> exists b, Basis fuel st m x = Ok b.
Proof.
  intros HM Hbc Hf. destruct fuel as [|[|fuel]]; [lia | lia |].
  destruct (Basis (S (S fuel)) st m x) as [b|e] eqn:E; [eauto|].
  pose proof (Basis_err _ _ _ _ _ HM Hbc E) as ->.
  rewrite Basis_two, (Basis_step 1) in E by exact HM.
  rewrite (Basis_ghost_left 0), (Basis_ghost_right 0) in E by exact HM.
  pose proof (Beta_not_out_of_fuel st m) as HB.
  destruct ((m =? 0) || (m =? 1));
    [destruct (Beta st m); cbn [rbind] in E; [discriminate | congruence]|].
  destruct ((m =? M st - 1) || (m =? M st)); [|discriminate].
  destruct (Beta st m); cbn [rbind] in E; [discriminate | congruence].
Qed.

(** ** The roughness matrix *)

Lemma qDelta_interior st a b :
  a <= b -> 2 <= a -> a + 2 <= M st ->
  qDelta st a b =
  if b - a >? 3 then Ok zero
  else
    let* q := forM [0; 1; 2; 3]
                (fun c q => let* p := table_get qparts (b - a) c in Ok (fadd q p)) zero in
    Ok (fmul (fmul q (DX st)) (alpha st)).
Proof.
  intros Hab Ha HM. unfold qDelta.
  destruct (a >? b) eqn:E; [zbool; lia|].
  destruct (b - a >? 3); [reflexivity|].
  rewrite Z.max_l, Z.min_l by lia.
  rewrite (range_cons (a - 2)) by lia.
  replace (a - 2 + 1) with (a - 1) by lia. rewrite (range_cons (a - 1)) by lia.
  replace (a - 1 + 1) with a by lia. rewrite (range_cons a) by lia.
  rewrite (range_cons (a + 1)) by lia. rewrite range_nil by lia.
  cbn [forM].
  replace (a - 2 - a + 2) with 0 by lia. replace (a - 1 - a + 2) with 1 by lia.
  replace (a - a + 2) with 2 by lia. replace (a + 1 - a + 2) with 3 by lia.
  reflexivity.
Qed.

(** Away from the two ends of the grid [qDelta] depends only on the
    distance between its node indices: shifting both indices by the same
    amount, while they stay within [2..M-2], does not change the value. *)
Theorem qDelta_interior_shift (st : BSplineBase) (m1 m2 k : Z) :
  2 <= m1 <= M st - 2 -> 2 <= m2 <= M st - 2 ->
  2 <= m1 + k <= M st - 2 -> 2 <= m2 + k <= M st - 2 ->
  qDelta st (m1 + k) (m2 + k) = qDelta st m1 m2.
Proof.
  intros H1 H2 H1' H2'.
  destruct (Z.le_gt_cases m1 m2) as [Hle|Hgt].
  - rewrite !qDelta_interior by lia. replace (m2 + k - (m1 + k)) with (m2 - m1) by lia.
    reflexivity.
  - assert (Sw : forall a b, qDelta st a b = qDelta st b a).
    { intros a b. unfold qDelta.
      destruct (a >? b) eqn:E1, (b >? a) eqn:E2; try reflexivity; zbool; [lia|].
      assert (a = b) as -> by lia. reflexivity. }
    rewrite (Sw (m1 + k)), (Sw m1).
    rewrite !qDelta_interior by lia. replace (m1 + k - (m2 + k)) with (m1 - m2) by lia.
    reflexivity.
Qed.

Lemma qDelta_interior_shift_witness : qDelta ready12 (2 + 5) (4 + 5) = qDelta ready12 2 4.
Proof.
  apply (qDelta_interior_shift ready12 2 4 5); vm_compute; split; discriminate.
Defined.

Lemma calculateQ_total st :
  4 <= M st -> 0 <= BC st <= 2 -> exists st', calculateQ st = Ok st'.
Proof.
  intros HM Hbc. unfold calculateQ.
  destruct (feq (alpha st) (of_int 0)); [eauto|].
  match goal with |- context [rbind (forM ?l ?b ?s) _] =>
    destruct (forM_total l b s) as [Q1 ->] end.
  { intros i A _. destruct (qDelta_total st i i) as [d ->]. cbn [rbind].
    apply forM_total. intros j B _.
    destruct (qDelta_total st i (i + j)) as [q ->]. cbn [rbind]. eauto. }
  cbn [rbind].
  match goal with |- context [rbind (forM ?l ?b ?s) _] =>
    destruct (forM_total l b s) as [Q2 ->] end.
  { intros i A Hi. apply elem_of_range in Hi.
    destruct (Beta_nodes_total st i) as (b1 & -> & _); [lia | lia | lia |].
    cbn [rbind]. apply forM_total. intros j B Hj. apply elem_of_range in Hj.
    destruct (Beta_nodes_total st j) as (b2 & -> & _); [lia | lia | lia |].
    cbn [rbind].
    destruct (negb ((j - i >=? 0) && (j - i <? 4))) eqn:E.
    { apply negb_true_iff, andb_false_iff in E as [E|E]; zbool; lia. }
    destruct (qDelta_total st (-1) i) as [d1 ->].
    destruct (qDelta_total st (-1) j) as [d2 ->].
    destruct (qDelta_total st (-1) (-1)) as [d3 ->].
    destruct (i + 1 <? 4), (j + 1 <? 4); cbn [rbind]; eauto. }
  cbn [rbind].
  match goal with |- context [rbind (forM ?l ?b ?s) _] =>
    destruct (forM_total l b s) as [Q3 ->] end.
  { intros i A Hi. apply elem_of_range in Hi.
    destruct (Beta_nodes_total st i) as (b1 & -> & _); [lia | lia | lia |].
    cbn [rbind]. apply forM_total. intros j B Hj. apply elem_of_range in Hj.
    destruct (Beta_nodes_total st j) as (b2 & -> & _); [lia | lia | lia |].
    cbn [rbind].
    destruct (qDelta_total st i (M st + 1)) as [d1 ->].
    destruct (qDelta_total st j (M st + 1)) as [d2 ->].
    destruct (qDelta_total st (M st + 1) (M st + 1)) as [d3 ->].
    destruct (M st + 1 - i <? 4), (M st + 1 - j <? 4); cbn [rbind]; eauto. }
  cbn [rbind]. eauto.
Qed.

Lemma qDelta_err st m1 m2 e : qDelta st m1 m2 = Err e -> False.
Proof. destruct (qDelta_total st m1 m2) as [q ->]. discriminate. Qed.

Lemma calculateQ_err st e : calculateQ st = Err e -> e = AssertFailed.
Proof.
  unfold calculateQ. destruct (feq (alpha st) (of_int 0)); [discriminate|].
  intros H. apply rbind_Err in H as [H|(Q1 & _ & H)].
  { exfalso. revert H. apply (forM_err (fun _ => False)). intros i A e1 _ H.
    apply rbind_Err in H as [H|(d & _ & H)]; [now apply qDelta_err in H|].
    revert H. apply (forM_err (fun _ => False)). intros j B e2 _ H.
    apply rbind_Err in H as [H|(d' & _ & H)]; [now apply qDelta_err in H|discriminate]. }
  apply rbind_Err in H as [H|(Q2 & _ & H)].
  { revert H. apply (forM_err (fun e => e = AssertFailed)). intros i A e1 _ H.
    apply rbind_Err in H as [H|(b1 & _ & H)]; [now apply Beta_err in H|].
    revert H. apply (forM_err (fun e => e = AssertFailed)). intros j B e2 _ H.
    apply rbind_Err in H as [H|(b2 & _ & H)]; [now apply Beta_err in H|].
    destruct (negb _); [congruence|].
    destruct (qDelta_total st (-1) i) as [d1 E1].
    destruct (qDelta_total st (-1) j) as [d2 E2].
    destruct (qDelta_total st (-1) (-1)) as [d3 E3].
    rewrite E1, E2, E3 in H.
    destruct (i + 1 <? 4), (j + 1 <? 4); discriminate. }
  apply rbind_Err in H as [H|(Q3 & _ & H)]; [|discriminate].
  revert H. apply (forM_err (fun e => e = AssertFailed)). intros i A e1 _ H.
  apply rbind_Err in H as [H|(b1 & _ & H)]; [now apply Beta_err in H|].
  revert H. apply (forM_err (fun e => e = AssertFailed)). intros j B e2 _ H.
  apply rbind_Err in H as [H|(b2 & _ & H)]; [now apply Beta_err in H|].
  destruct (qDelta_total st i (M st + 1)) as [d1 E1].
  destruct (qDelta_total st j (M st + 1)) as [d2 E2].
  destruct (qDelta_total st (M st + 1) (M st + 1)) as [d3 E3].
  rewrite E1, E2, E3 in H.
  destruct (M st + 1 - i <? 4), (M st + 1 - j <? 4); discriminate.
Qed.

Lemma calculateQ_Ok_ge st st' :
  feq (alpha st) (of_int 0) = false -> calculateQ st = Ok st' -> 4 <= M st.
Proof.
  unfold calculateQ. intros ->. intros H.
  inv_bind H as Q1 HQ1. inv_bind H as Q2 HQ2.
  destruct (forM_each _ _ _ _ HQ2 1) as (A1 & A2 & Hb).
  { apply elem_of_range. lia. }
  inv_bind Hb as b1 Hb1.
  destruct (forM_each _ _ _ _ Hb 4) as (B1 & B2 & Hj).
  { apply elem_of_range. lia. }
  inv_bind Hj as b2 Hb2. eapply Beta_Ok_le, Hb2.
Qed.

(** With a nonzero [alpha], [calculateQ] needs at least four node
    intervals: it returns for every [M >= 4], and for [0 <= M < 4] its
    upper-left corner loop asks [Beta] for a node beyond the grid and stops
    at the assertion. *)
Theorem calculateQ_needs_four_intervals (st : BSplineBase) :
  feq (alpha st) (of_int 0) = false -> 0 <= BC st <= 2 ->
  (4 <= M st -> exists st', calculateQ st = Ok st') /\
  (0 <= M st < 4 -> calculateQ st = Err AssertFailed).
Proof.
  intros Ha Hbc. split.
  - intros HM. now apply calculateQ_total.
  - intros HM. destruct (calculateQ st) as [st'|e] eqn:E.
    + apply calculateQ_Ok_ge in E; [lia | exact Ha].
    + f_equal. eapply calculateQ_err, E.
Qed.

Lemma calculateQ_needs_four_intervals_witness :
  (4 <= M ready12 -> exists st', calculateQ ready12 = Ok st') /\
  (0 <= M ready12 < 4 -> calculateQ ready12 = Err AssertFailed).
Proof.
  apply (calculateQ_needs_four_intervals ready12);
    vm_compute; first [reflexivity | split; discriminate].
Defined.

(** ** What [setDomain] does to the object *)

Lemma addP_err fuel st e :
  1 <= M st -> 0 <= BC st <= 2 -> addP fuel st = Err e -> e = Undefined \/ e = OutOfFuel.
Proof.
  intros HM Hbc. unfold addP. intros H.
  apply rbind_Err in H as [H|(P & _ & H)]; [|discriminate].
  revert H. apply (forM_err (fun e => e = Undefined \/ e = OutOfFuel)). intros i A e1 _ H.
  apply rbind_Err in H as [H|(x & _ & H)]; [left; eapply vget_err, H|].
  apply rbind_Err in H as [H|(m0 & _ & H)]; [left; eapply f2i_err, H|].
  revert H. apply (forM_err (fun e => e = Undefined \/ e = OutOfFuel)). intros m B e2 _ H.
  apply rbind_Err in H as [H|(pm & _ & H)]; [right; eapply Basis_err; eauto|].
  revert H. apply (forM_err (fun e => e = Undefined \/ e = OutOfFuel)). intros n C e3 _ H.
  apply rbind_Err in H as [H|(pm' & _ & H)]; [right; eapply Basis_err; eauto|].
  apply rbind_Err in H as [H|(pn & _ & H)]; [right; eapply Basis_err; eauto|].
  discriminate.
Qed.

(** [setDomain] never stops at a failed assertion or at [exit]: whenever
    the run does not return, it is because of an undefined operation (a
    sample array shorter than [nx], the float-to-int conversion of [addP])
    or because the model's fuel ran out.  The assertions of [Beta] and
    [calculateQ] cannot fail there, because [Setup] leaves [M >= 10] when
    the wavelength is nonzero and [alpha = 0] when it is zero. *)
Theorem setDomain_never_asserts
  (LUf : MatrixT -> list Z -> Z -> MatrixT * list Z * Z)
  (fuel : nat) (st : BSplineBase) (x : option (list float)) (nx : Z) (wl : float)
  (bc : Z) (e : error) :
  setDomain LUf fuel st x nx wl bc = Err e -> e = Undefined \/ e = OutOfFuel.
Proof.
  unfold setDomain. destruct x as [arr|]; [|discriminate].
  destruct (nx <=? 0) eqn:E1; [discriminate|].
  destruct (flt wl (of_int 0)) eqn:E2; [discriminate|].
  destruct (bc <? 0) eqn:E3; [discriminate|].
  destruct (bc >? 2) eqn:E4; [discriminate|].
  cbn [orb]. destruct (Z.of_nat (length arr) <? nx) eqn:E5; [intros [= <-]; auto|].
  fold (stored st arr nx wl bc). zbool. intros H.
  apply rbind_Err in H as [H|([ok stS] & HS & H)]; [eapply Setup_err, H|].
  destruct ok; [|discriminate].
  apply Setup_true_inv in HS as (lo & hi & k & _ & -> & _ & Hk).
  assert (EN : NX (stored st arr nx wl bc) = nx).
  { cbn. rewrite length_take. lia. }
  change (waveLength (stored st arr nx wl bc)) with wl in Hk. rewrite EN in Hk.
  set (stS := with_grid _ k _) in H.
  assert (HM : 1 <= M stS) by (cbn; lia).
  assert (Hbc : 0 <= BC stS <= 2) by (cbn; lia).
  apply rbind_Err in H as [H|(stQ & HQ & H)].
  { exfalso. destruct Hk as [[Hz _]|[_ Hk]].
    - unfold calculateQ in H. cbn [with_alpha alpha] in H.
      change (waveLength stS) with wl in H.
      rewrite (Alpha_zero _ _ Hz) in H. discriminate.
    - destruct (calculateQ_total (with_alpha stS (Alpha stS (waveLength stS))))
        as [q Hq]; [cbn; lia | exact Hbc |]. congruence. }
  apply rbind_Err in H as [H|(stP & _ & H)].
  { rewrite (calculateQ_frame _ _ HQ) in H. eapply addP_err, H; assumption. }
  destruct (factor LUf stP) as [[] stF]; discriminate.
Qed.

Lemma setDomain_never_asserts_witness : Undefined = Undefined \/ Undefined = OutOfFuel.
Proof.
  apply (setDomain_never_asserts LU_accept 5 blank (Some flat3) 3 zero 0 Undefined).
  vm_compute. reflexivity.
Defined.

(** [Setup] writes [xmin], [xmax], [M] and [DX] and nothing else. *)
Lemma Setup_keeps fuel st b st' :
  Setup fuel st = Ok (b, st') ->
  exists lo hi, scan_domain (X (base st)) (NX st) = Ok (lo, hi) /\
    xmin st' = lo /\ xmax st' = hi /\
    waveLength st' = waveLength st /\ NX st' = NX st /\ K st' = K st /\
    BC st' = BC st /\ alpha st' = alpha st /\ OK st' = OK st /\ base st' = base st.
Proof.
  unfold Setup. intros H. inv_bind H as lohi Hscan. destruct lohi as [lo hi].
  exists lo, hi. split; [exact Hscan|].
  destruct (fgt _ _); [injection H as <- <-; repeat split|].
  destruct (feq _ _); [injection H as <- <-; repeat split|].
  inv_bind H as r Hr. destruct r as [[[ni dx] rf]|]; [|injection H as <- <-; repeat split].
  inv_bind H as nd Hnd. destruct nd as [k dx']. injection H as <- <-. repeat split.
Qed.

Section Bookkeeping.

Variable LU_factor_banded : MatrixT -> list Z -> Z -> MatrixT * list Z * Z.

Lemma factor_keeps st :
  let st' := snd (factor LU_factor_banded st) in
  waveLength st' = waveLength st /\ NX st' = NX st /\ K st' = K st /\ BC st' = BC st /\
  xmin st' = xmin st /\ xmax st' = xmax st /\ M st' = M st /\ DX st' = DX st /\
  alpha st' = alpha st /\ OK st' = OK st /\
  Q (base st') = Q (base st) /\ X (base st') = X (base st) /\
  Nodes (base st') = Nodes (base st).
Proof.
  unfold factor. destruct (LU_factor_banded _ _ _) as [[lu idx] rc]. repeat split.
Qed.

(** The state an accepted call leaves, whatever it returns:
    [P] holds for it as soon as it depends only on the members that
    [calculateQ], [addP], [factor] and the final assignment of [OK] leave
    alone. *)
Lemma setDomain_accepted_inv fuel st arr nx wl bc ok st' :
  0 < nx -> flt wl (of_int 0) = false -> 0 <= bc <= 2 ->
  setDomain LU_factor_banded fuel st (Some arr) nx wl bc = Ok (ok, st') ->
  nx <= Z.of_nat (length arr) /\
  exists lo hi,
    scan_domain (take (Z.to_nat nx) arr) nx = Ok (lo, hi) /\
    OK st' = ok /\ waveLength st' = wl /\ BC st' = bc /\ NX st' = nx /\
    X (base st') = take (Z.to_nat nx) arr /\ K st' = K st /\
    Nodes (base st') = Nodes (base st) /\ xmin st' = lo /\ xmax st' = hi.
Proof.
  intros Hn Hw Hb H.
  assert (Hlen : nx <= Z.of_nat (length arr)).
  { unfold setDomain in H. rewrite Hw in H.
    destruct (nx <=? 0) eqn:E1; [zbool; lia|].
    destruct (bc <? 0) eqn:E3; [zbool; lia|].
    destruct (bc >? 2) eqn:E4; [zbool; lia|].
    cbn [orb] in H.
    destruct (Z.of_nat (length arr) <? nx) eqn:E5; [discriminate | zbool; lia]. }
  split; [exact Hlen|].
  rewrite setDomain_accepted in H by (try split; assumption || lia).
  assert (EN : NX (stored st arr nx wl bc) = nx).
  { cbn. rewrite length_take. lia. }
  inv_bind H as r HS. destruct r as [okS stS].
  apply Setup_keeps in HS
    as (lo & hi & Hscan & Hlo & Hhi & Hwl & HNX & HK & HBC & Hal & HOK & Hbase).
  change (X (base (stored st arr nx wl bc))) with (take (Z.to_nat nx) arr) in Hscan.
  rewrite EN in Hscan, HNX. clear EN.
  unfold stored in Hwl, HK, HBC, Hal, HOK, Hbase.
  cbn in Hwl, HK, HBC, Hal, HOK, Hbase.
  exists lo, hi. split; [exact Hscan|].
  destruct okS.
  - inv_bind H as stQ HQ. inv_bind H as stP HP.
    pose proof (factor_keeps stP) as HF.
    destruct (factor LU_factor_banded stP) as [okF stF]. cbn [snd] in HF.
    destruct HF as (F1 & F2 & F3 & F4 & F5 & F6 & F7 & F8 & F9 & F10 & F11 & F12 & F13).
    rewrite (addP_frame _ _ _ HP), (calculateQ_frame _ _ HQ) in F1, F2, F3, F4, F5, F6, F10, F12, F13.
    cbn in F1, F2, F3, F4, F5, F6, F10, F12, F13.
    rewrite Hbase in F12, F13. rewrite HOK in F10. cbn in F10, F12, F13.
    destruct okF; injection H as <- <-; cbn;
      repeat split; congruence.
  - injection H as <- <-. rewrite Hbase. repeat split; try congruence.
Qed.

End Bookkeeping.

(** What a call of [setDomain] with accepted arguments leaves in the
    object, whether it returns [true] or [false]: the returned value is the
    flag [OK]; the wavelength, the boundary type and the first [nx] samples
    are stored, [NX] is their count (so the copy constructor, which
    recomputes [NX] from the stored samples, gives an identical object);
    [K] and the cache of [nodes] are not touched. *)
Theorem setDomain_bookkeeping
  (LUf : MatrixT -> list Z -> Z -> MatrixT * list Z * Z)
  (fuel : nat) (st : BSplineBase) (arr : list float) (nx : Z) (wl : float) (bc : Z)
  (ok : bool) (st' : BSplineBase) :
  0 < nx -> flt wl (of_int 0) = false -> 0 <= bc <= 2 ->
  setDomain LUf fuel st (Some arr) nx wl bc = Ok (ok, st') ->
  OK st' = ok /\ waveLength st' = wl /\ BC st' = bc /\ NX st' = nx /\
  X (base st') = take (Z.to_nat nx) arr /\ BSplineBase_copy st' = st' /\
  K st' = K st /\ Nodes (base st') = Nodes (base st).
Proof.
  intros Hn Hw Hb H.
  apply setDomain_accepted_inv in H
    as (Hlen & lo & hi & _ & H1 & H2 & H3 & H4 & H5 & H6 & H7 & _); try assumption.
  repeat split; try assumption.
  unfold BSplineBase_copy. rewrite H5, length_take.
  replace (Z.of_nat (Z.to_nat nx `min` length arr)) with (NX st') by lia.
  now destruct st'.
Qed.

Lemma setDomain_bookkeeping_witness :
  OK ready12 = true /\ waveLength ready12 = of_int 5 /\ BC ready12 = 2 /\
  NX ready12 = 12 /\ X (base ready12) = take (Z.to_nat 12) (ramp 12) /\
  BSplineBase_copy ready12 = ready12 /\
  K ready12 = K blank /\ Nodes (base ready12) = Nodes (base blank).
Proof.
  apply (setDomain_bookkeeping LU_accept 50 blank (ramp 12) 12 (of_int 5) 2 true ready12);
    first [lia | vm_compute; reflexivity].
Defined.

(** After every call of [setDomain] with accepted arguments that
    returns, [xmin] and [xmax] are two of the stored samples, [xmax] is not
    below [xmin], and no stored sample is below [xmin] or above [xmax]; this
    holds for every wavelength and also when the call returns [false]. *)
Theorem setDomain_domain_bounds
  (LUf : MatrixT -> list Z -> Z -> MatrixT * list Z * Z)
  (fuel : nat) (st : BSplineBase) (arr : list float) (nx : Z) (wl : float) (bc : Z)
  (ok : bool) (st' : BSplineBase) :
  0 < nx -> flt wl (of_int 0) = false -> 0 <= bc <= 2 ->
  setDomain LUf fuel st (Some arr) nx wl bc = Ok (ok, st') ->
  xmin st' ∈ X (base st') /\ xmax st' ∈ X (base st') /\
  flt (xmax st') (xmin st') = false /\
  (forall u, u ∈ X (base st') ->
             flt u (xmin st') = false /\ flt (xmax st') u = false).
Proof.
  intros Hn Hw Hb H.
  apply setDomain_accepted_inv in H
    as (Hlen & lo & hi & Hscan & _ & _ & _ & _ & HX & _ & _ & -> & ->); try assumption.
  apply scan_domain_spec in Hscan as (Hlo & Hhi & Hhl & Hall); [|lia].
  rewrite HX. repeat split; try assumption.
  all: apply elem_of_vget in H as (i & Hi & Hget); rewrite length_take in Hi;
    destruct (Hall i u) as [H1 H2]; [lia | exact Hget | assumption].
Qed.

Lemma setDomain_domain_bounds_witness :
  xmin ready12 ∈ X (base ready12) /\ xmax ready12 ∈ X (base ready12) /\
  flt (xmax ready12) (xmin ready12) = false /\
  (forall u, u ∈ X (base ready12) ->
             flt u (xmin ready12) = false /\ flt (xmax ready12) u = false).
Proof.
  apply (setDomain_domain_bounds LU_accept 50 blank (ramp 12) 12 (of_int 5) 2 true ready12);
    first [lia | vm_compute; reflexivity].
Defined.

(** The constructor [BSplineBase (x, nx, wl, bc)] builds an object with
    [K = 1] and an empty cache of nodes.  Since it starts from [OK = false],
    the object is ready only if the arguments were accepted, and then it
    holds them together with a grid of at least one interval. *)
Theorem constructor_ready
  (LUf : MatrixT -> list Z -> Z -> MatrixT * list Z * Z)
  (fuel : nat) (st : BSplineBase) (x : option (list float)) (nx : Z) (wl : float)
  (bc : Z) (st' : BSplineBase) :
  BSplineBase_new LUf fuel st x nx wl bc = Ok st' ->
  K st' = 1 /\ Nodes (base st') = [] /\
  (OK st' = true ->
   0 < nx /\ (exists arr, x = Some arr) /\ flt wl (of_int 0) = false /\ 0 <= bc <= 2 /\
   waveLength st' = wl /\ BC st' = bc /\ NX st' = nx /\ 1 <= M st').
Proof.
  unfold BSplineBase_new. intros H. inv_bind H as r Hr. destruct r as [ok st1].
  injection H as ->.
  set (st0 := mkBase _ _ _ _ _ _ _ _ _ _ _) in Hr.
  assert (Hrej : nx <= 0 \/ x = None \/ flt wl (of_int 0) = true \/ bc < 0 \/ 2 < bc ->
                 K st' = 1 /\ Nodes (base st') = [] /\ OK st' = false).
  { intros Hbad. rewrite setDomain_invalid in Hr by exact Hbad.
    injection Hr as <- <-. repeat split. }
  destruct x as [arr|]; [|destruct Hrej as (? & ? & ?); [auto|]; repeat split; congruence].
  destruct (Z.leb_spec nx 0) as [Hn|Hn];
    [destruct Hrej as (? & ? & ?); [auto|]; repeat split; congruence|].
  destruct (flt wl (of_int 0)) eqn:Hw;
    [destruct Hrej as (? & ? & ?); [auto|]; repeat split; congruence|].
  destruct (Z.ltb_spec bc 0) as [Hb|Hb];
    [destruct Hrej as (? & ? & ?); [auto|]; repeat split; congruence|].
  destruct (Z.ltb_spec 2 bc) as [Hb'|Hb'];
    [destruct Hrej as (? & ? & ?); [auto 6|]; repeat split; congruence|].
  clear Hrej.
  assert (Hbc : 0 <= bc <= 2) by lia.
  pose proof (setDomain_accepted_inv LUf fuel st0 arr nx wl bc ok st' Hn Hw Hbc Hr)
    as (_ & lo0 & hi0 & _ & B1 & B2 & B3 & B4 & _ & B7 & B8 & _).
  split; [exact B7|]. split; [exact B8|]. intros HOK.
  rewrite HOK in B1. subst ok.
  apply ready_grid in Hr
    as (arr' & lo & hi & k & _ & _ & _ & HM & _ & _ & _ & _ & _ & Hk & _).
  assert (1 <= k) by (destruct Hk as [[_ ->]|[_ Hk]]; lia).
  repeat split; eauto; lia.
Qed.

Lemma constructor_ready_witness :
  K ready12 = 1 /\ Nodes (base ready12) = [] /\
  (OK ready12 = true ->
   0 < 12 /\ (exists arr, Some (ramp 12) = Some arr) /\
   flt (of_int 5) (of_int 0) = false /\ 0 <= 2 <= 2 /\
   waveLength ready12 = of_int 5 /\ BC ready12 = 2 /\ NX ready12 = 12 /\ 1 <= M ready12).
Proof.
  apply (constructor_ready LU_accept 50 blank (Some (ramp 12)) 12 (of_int 5) 2 ready12).
  vm_compute. reflexivity.
Defined.

(** ** The grid and the system of a ready object *)

Lemma coarse_search_dense fuel st n ni dx rf :
  coarse_search fuel st n = Ok (Some (ni, dx, rf)) ->
  fge (fdiv (of_int (NX st)) (of_int (ni + 1))) one = true.
Proof.
  revert n. induction fuel as [|fuel IH]; simpl; intros n H; [discriminate|].
  destruct (fge (fdiv (of_int (NX st)) (of_int (n + 1 + 1))) one) eqn:E;
    cbn [negb] in H; [|discriminate].
  destruct (fgt _ two).
  - eapply IH, H.
  - injection H as <- _ _. exact E.
Qed.

Lemma fine_search_dense fuel st n ni dx :
  fge (fdiv (of_int (NX st)) (of_int (n + 1))) one = true ->
  fine_search fuel st n = Ok (ni, dx) ->
  fge (fdiv (of_int (NX st)) (of_int (ni + 1))) one = true.
Proof.
  revert n. induction fuel as [|fuel IH]; simpl; intros n Hn H; [discriminate|].
  destruct (fge (fdiv (of_int (NX st)) (of_int (n + 1 + 1))) one) eqn:E; cbn [negb orb] in H.
  - destruct (fgt _ (of_int 15)).
    + injection H as <- _. replace (n + 1 - 1) with n by lia. exact Hn.
    + destruct (_ || fgt _ two).
      * eapply IH; [exact E | exact H].
      * injection H as <- _. exact E.
  - injection H as <- _. replace (n + 1 - 1) with n by lia. exact Hn.
Qed.

Lemma Setup_dense fuel st st' :
  feq (waveLength st) (of_int 0) = false ->
  Setup fuel st = Ok (true, st') ->
  fge (fdiv (of_int (NX st')) (of_int (M st' + 1))) one = true.
Proof.
  unfold Setup. intros Hwl H. inv_bind H as lohi Hscan. destruct lohi as [lo hi].
  cbn [with_minmax waveLength] in H. rewrite Hwl in H.
  destruct (fgt _ _); [discriminate|].
  inv_bind H as r Hr. destruct r as [[[ni dx] rf]|]; [|discriminate].
  inv_bind H as nd Hnd. destruct nd as [k dx']. injection H as <-.
  apply coarse_search_dense in Hr. apply (fine_search_dense _ _ _ _ _ Hr) in Hnd.
  exact Hnd.
Qed.

(** With a nonzero wavelength, the grid of a ready object passes the
    density test of [Ratio]: [(float) NX / (float) (M + 1) >= 1.0] holds for
    the [M] that [Setup] stored, also when the second search loop stepped
    back to the previous candidate without testing it again. *)
Theorem accepted_grid_density
  (LUf : MatrixT -> list Z -> Z -> MatrixT * list Z * Z)
  (fuel : nat) (st : BSplineBase) (x : option (list float)) (nx : Z) (wl : float)
  (bc : Z) (st' : BSplineBase) :
  feq wl (of_int 0) = false ->
  setDomain LUf fuel st x nx wl bc = Ok (true, st') ->
  fge (fdiv (of_int (NX st')) (of_int (M st' + 1))) one = true.
Proof.
  intros Hwl H.
  apply setDomain_true_inv in H
    as (arr & stS & stQ & stP & -> & Hn & Hw & Hb & HS & HQ & HP & _ & ->).
  apply Setup_dense in HS; [|exact Hwl].
  rewrite factor_frame, (addP_frame _ _ _ HP), (calculateQ_frame _ _ HQ). exact HS.
Qed.

Lemma accepted_grid_density_witness :
  fge (fdiv (of_int (NX ready12)) (of_int (M ready12 + 1))) one = true.
Proof.
  apply (accepted_grid_density LU_accept 50 blank (Some (ramp 12)) 12 (of_int 5) 2);
    vm_compute; reflexivity.
Defined.

Lemma in_band_ext A B i j :
  dim A = dim B -> bands A = bands B -> in_band A i j = in_band B i j.
Proof. unfold in_band. now intros -> ->. Qed.

Lemma set_dim A a b v : dim (set A a b v) = dim A /\ bands (set A a b v) = bands A.
Proof. unfold set. destruct (in_band A a b); auto. Qed.

Lemma get_out_of_band A i j : in_band A i j = false -> get A i j = zero.
Proof. unfold get. now intros ->. Qed.

Lemma add_mirror_dim A i j q :
  dim (add_mirror A i j q) = dim A /\ bands (add_mirror A i j q) = bands A.
Proof.
  unfold add_mirror.
  destruct (set_dim (set A i j (fadd (get A i j) q)) j i
              (get (set A i j (fadd (get A i j) q)) i j)) as [-> ->].
  apply set_dim.
Qed.

Lemma calculateQ_shape st st' :
  calculateQ st = Ok st' ->
  dim (Q (base st')) = M st + 1 /\ bands (Q (base st')) = 3.
Proof.
  unfold calculateQ. destruct (feq (alpha st) (of_int 0)).
  - intros [= <-]. split; reflexivity.
  - intros H.
    inv_bind H as Q1 HQ1. inv_bind H as Q2 HQ2. inv_bind H as Q3 HQ3.
    injection H as <-. cbn [with_Q base Q].
    set (shape := fun A : MatrixT => dim A = M st + 1 /\ bands A = 3).
    assert (S1 : shape Q1).
    { revert HQ1. apply (forM_inv shape); [split; reflexivity|].
      intros i A1 A2 _ HA1 Hb. inv_bind Hb as d Hd.
      revert Hb. apply (forM_inv shape).
      { destruct (set_dim A1 i i d) as [E1 E2]. destruct HA1. split; congruence. }
      intros j B1 B2 _ HB1 Hb. inv_bind Hb as q Hq. injection Hb as <-.
      destruct (set_dim (set B1 (i + j) i q) i (i + j) q) as [E1 E2].
      destruct (set_dim B1 (i + j) i q) as [E3 E4]. destruct HB1. split; congruence. }
    assert (S2 : shape Q2).
    { revert HQ2. apply (forM_inv shape); [exact S1|].
      intros i A1 A2 _ HA1 Hb. inv_bind Hb as b1 Hb1.
      revert Hb. apply (forM_inv shape); [exact HA1|].
      intros j B1 B2 _ HB1 Hb. inv_bind Hb as b2 Hb2.
      destruct (negb _); [discriminate|].
      inv_bind Hb as q1 Hq1. inv_bind Hb as q2 Hq2. inv_bind Hb as d Hd.
      injection Hb as <-.
      match goal with |- shape (add_mirror ?A ?i ?j ?q) =>
        destruct (add_mirror_dim A i j q) as [E1 E2] end.
      destruct HB1. split; congruence. }
    revert HQ3. apply (forM_inv shape); [exact S2|].
    intros i A1 A2 _ HA1 Hb. inv_bind Hb as b1 Hb1.
    revert Hb. apply (forM_inv shape); [exact HA1|].
    intros j B1 B2 _ HB1 Hb. inv_bind Hb as b2 Hb2.
    inv_bind Hb as q1 Hq1. inv_bind Hb as q2 Hq2. inv_bind Hb as d Hd.
    injection Hb as <-.
    match goal with |- shape (add_mirror ?A ?i ?j ?q) =>
      destruct (add_mirror_dim A i j q) as [E1 E2] end.
    destruct HB1. split; congruence.
Qed.

Lemma addP_shape fuel st st' :
  addP fuel st = Ok st' ->
  dim (Q (base st')) = dim (Q (base st)) /\ bands (Q (base st')) = bands (Q (base st)).
Proof.
  unfold addP. intros H. inv_bind H as P HP. injection H as <-. cbn [with_Q base Q].
  set (shape := fun A : MatrixT =>
                  dim A = dim (Q (base st)) /\ bands A = bands (Q (base st))).
  revert HP. apply (forM_inv shape); [split; reflexivity|].
  intros i A1 A2 _ HA1 Hb. inv_bind Hb as x Hx. inv_bind Hb as m0 Hm0.
  revert Hb. apply (forM_inv shape); [exact HA1|].
  intros m B1 B2 _ HB1 Hb. inv_bind Hb as pm Hpm.
  revert Hb. apply (forM_inv shape).
  { match goal with |- shape (set ?A ?i ?j ?v) => destruct (set_dim A i j v) as [E1 E2] end.
    destruct HB1. split; congruence. }
  intros n C1 C2 _ HC1 Hb. inv_bind Hb as pm' Hpm'. inv_bind Hb as pn Hpn.
  injection Hb as <-.
  match goal with |- shape (set ?A ?i ?j ?v) => destruct (set_dim A i j v) as [E1 E2] end.
  match goal with |- shape (set (set ?A ?i ?j ?v) _ _ _) =>
    destruct (set_dim A i j v) as [E3 E4] end.
  destruct HC1. split; congruence.
Qed.

(** A ready object holds a system matrix of [M+1] rows and half-bandwidth
    3, whose entries more than three places off the diagonal are 0, and the
    factorisation that [LU_factor_banded] made of it from a pivot vector of
    [M+1] zeros, with status 0. *)
Theorem ready_system_shape
  (LUf : MatrixT -> list Z -> Z -> MatrixT * list Z * Z)
  (fuel : nat) (st : BSplineBase) (x : option (list float)) (nx : Z) (wl : float)
  (bc : Z) (st' : BSplineBase) :
  setDomain LUf fuel st x nx wl bc = Ok (true, st') ->
  dim (Q (base st')) = M st' + 1 /\ bands (Q (base st')) = 3 /\
  (forall i j, 3 < Z.abs (i - j) -> get (Q (base st')) i j = zero) /\
  LUf (Q (base st')) (replicate (Z.to_nat (M st' + 1)) 0) 3 =
  (LU (base st'), index (base st'), 0).
Proof.
  intros H.
  apply setDomain_true_inv in H
    as (arr & stS & stQ & stP & -> & Hn & Hw & Hb & HS & HQ & HP & HF & ->).
  pose proof (calculateQ_shape _ _ HQ) as [D1 D2].
  pose proof (addP_shape _ _ _ HP) as [D3 D4].
  pose proof (addP_frame _ _ _ HP) as FP. pose proof (calculateQ_frame _ _ HQ) as FQ.
  assert (HM : M stP = M stS) by (rewrite FP, FQ; reflexivity).
  cbn [with_alpha M] in D1.
  unfold factor in *. destruct (LUf (Q (base stP)) _ 3) as [[lu idx] rc] eqn:E.
  cbn [fst snd with_OK with_LU base Q LU index M] in *. zbool. subst rc.
  rewrite HM in *.
  split; [congruence|]. split; [congruence|]. split; [|exact E].
  intros i j Hd. apply get_out_of_band. unfold in_band.
  replace (bands (Q (base stP))) with 3 by congruence.
  destruct (Z.abs (i - j) <=? 3) eqn:E3; [zbool; lia|]. now rewrite andb_false_r.
Qed.

Lemma ready_system_shape_witness :
  dim (Q (base ready12)) = M ready12 + 1 /\ bands (Q (base ready12)) = 3 /\
  (forall i j, 3 < Z.abs (i - j) -> get (Q (base ready12)) i j = zero) /\
  LU_accept (Q (base ready12)) (replicate (Z.to_nat (M ready12 + 1)) 0) 3 =
  (LU (base ready12), index (base ready12), 0).
Proof.
  apply (ready_system_shape LU_accept 50 blank (Some (ramp 12)) 12 (of_int 5) 2).
  vm_compute. reflexivity.
Defined.

(** ** Inputs that [setDomain] cannot handle *)

Lemma ratio_below_eleven nx :
  0 < nx <= 10 -> fge (fdiv (of_int nx) (of_int 11)) one = false.
Proof.
  intros H.
  assert (nx = 1 \/ nx = 2 \/ nx = 3 \/ nx = 4 \/ nx = 5 \/ nx = 6 \/ nx = 7 \/ nx = 8 \/
          nx = 9 \/ nx = 10) as [->|[->|[->|[->|[->|[->|[->|[->|[->| ->]]]]]]]]] by lia;
    vm_compute; reflexivity.
Qed.

(** With a nonzero wavelength, ten samples or fewer are always rejected:
    the grid search starts at ten node intervals and the density test
    [NX / (ni + 1) >= 1] of [Ratio] fails there, so [setDomain] returns
    [false] and leaves the object not ready, whatever the samples are. *)
Theorem few_samples_rejected
  (LUf : MatrixT -> list Z -> Z -> MatrixT * list Z * Z)
  (fuel : nat) (st : BSplineBase) (arr : list float) (nx : Z) (wl : float) (bc : Z) :
  0 < nx <= 10 -> nx <= Z.of_nat (length arr) ->
  flt wl (of_int 0) = false -> feq wl (of_int 0) = false -> 0 <= bc <= 2 ->
  exists st',
    setDomain LUf (S fuel) st (Some arr) nx wl bc = Ok (false, st') /\ OK st' = false.
Proof.
  intros Hn Hlen Hw Hwl Hb.
  destruct (scan_domain_total (take (Z.to_nat nx) arr) nx) as (lo & hi & Hscan).
  { rewrite length_take. lia. }
  exists (with_minmax (stored st arr nx wl bc) lo hi). split; [|reflexivity].
  destruct (fgt wl (fsub hi lo)) eqn:Hspan.
  - apply setDomain_span; auto; lia.
  - rewrite setDomain_accepted by (auto; lia).
    assert (EN : NX (stored st arr nx wl bc) = nx).
    { cbn. rewrite length_take. lia. }
    rewrite (Setup_too_sparse fuel _ lo hi); [reflexivity | | | |].
    + rewrite EN. exact Hscan.
    + exact Hspan.
    + exact Hwl.
    + rewrite EN. now apply ratio_below_eleven.
Qed.

Lemma few_samples_rejected_witness :
  exists st',
    setDomain LU_accept 1 blank (Some (ramp 10)) 10 (of_int 3) 0 = Ok (false, st') /\
    OK st' = false.
Proof.
  apply (few_samples_rejected LU_accept 0 blank (ramp 10) 10 (of_int 3) 0);
    first [lia | vm_compute; reflexivity | vm_compute; discriminate].
Defined.

Lemma forM_fixed {St} (l : list Z) body (s : St) :
  (forall i, i ∈ l -> body i s = Ok s) -> forM l body s = Ok s.
Proof.
  induction l as [|i l IH]; simpl; intros Hb; [reflexivity|].
  rewrite Hb by left. cbn [rbind]. apply IH. intros j Hj. apply Hb. now right.
Qed.

Lemma vget_replicate {A} n (c : A) i :
  0 <= i < Z.of_nat n -> vget (replicate n c) i = Ok c.
Proof.
  intros Hi. unfold vget. destruct (i <? 0) eqn:E; [zbool; lia|].
  rewrite lookup_replicate_2 by lia. reflexivity.
Qed.

Lemma scan_domain_replicate n c :
  1 <= n -> scan_domain (replicate (Z.to_nat n) c) n = Ok (c, c).
Proof.
  intros Hn. unfold scan_domain. rewrite vget_replicate by lia. cbn [rbind].
  apply forM_fixed. intros i Hi. apply elem_of_range in Hi.
  rewrite vget_replicate by lia. cbn [rbind].
  change (fgt c c) with (flt c c). rewrite flt_irrefl. reflexivity.
Qed.

Lemma fdiv_zero_degenerate f :
  is_nan (fdiv zero f) = true \/ exists s, fdiv zero f = S754_zero s.
Proof. destruct f as [s|s| |s m e]; cbn; eauto. Qed.

Lemma zero_not_above wl : feq wl (of_int 0) = true -> fgt wl zero = false.
Proof. intros H. apply feq_zero_inv in H as [t ->]. reflexivity. Qed.

Lemma zero_not_below wl : feq wl (of_int 0) = true -> flt wl (of_int 0) = false.
Proof. intros H. apply feq_zero_inv in H as [t ->]. reflexivity. Qed.





(** Samples that are all equal to one finite value, with the frequency
    constraint turned off: [Setup] accepts them with a spacing [0 / NX] that
    is zero or NaN, and [setDomain] then runs into the undefined conversion
    [(int)((x - xmin) / DX)] of [addP], whatever the object held before,
    the boundary type and the LU routine. *)
Theorem equal_samples_undefined
  (LUf : MatrixT -> list Z -> Z -> MatrixT * list Z * Z)
  (fuel : nat) (st : BSplineBase) (arr : list float) (nx : Z) (wl : float) (bc : Z)
  (c : float) :
  0 < nx -> 0 <= bc <= 2 -> feq wl (of_int 0) = true ->
  is_finite c = true ->
  take (Z.to_nat nx) arr = replicate (Z.to_nat nx) c ->
  setDomain LUf fuel st (Some arr) nx wl bc = Err Undefined.
Proof.
  intros Hn Hb Hwl Hc Harr.
  assert (Hlen : nx <= Z.of_nat (length arr)).
  { apply (f_equal length) in Harr. rewrite length_take, length_replicate in Harr. lia. }
  rewrite setDomain_accepted by (try split; auto using zero_not_below; lia).
  assert (EN : NX (stored st arr nx wl bc) = nx).
  { cbn. rewrite length_take. lia. }
  unfold Setup. rewrite EN.
  change (X (base (stored st arr nx wl bc))) with (take (Z.to_nat nx) arr).
  rewrite Harr, scan_domain_replicate by lia. cbn [rbind].
  cbn [with_minmax waveLength xmax xmin NX].
  change (waveLength (stored st arr nx wl bc)) with wl.
  rewrite (fsub_self c Hc), EN.
  rewrite (zero_not_above wl Hwl), Hwl. cbn [rbind].
  set (dx := fdiv zero (of_int nx)).
  cbn [with_grid waveLength]. change (waveLength (stored st arr nx wl bc)) with wl.
  rewrite (Alpha_zero _ _ Hwl).
  unfold calculateQ. cbn [with_alpha alpha]. change (feq zero (of_int 0)) with true.
  cbv iota. cbn [rbind]. unfold addP.
  cbn [with_Q with_alpha with_grid with_minmax NX base X xmin DX Q M].
  rewrite EN. change (X (base (stored st arr nx wl bc))) with (take (Z.to_nat nx) arr).
  rewrite Harr, range_cons by lia. cbn [forM].
  rewrite vget_replicate by lia. cbn [rbind].
  rewrite (fsub_self c Hc), f2i_div_degenerate; [reflexivity|].
  apply fdiv_zero_degenerate.
Qed.

Lemma equal_samples_undefined_witness :
  setDomain LU_accept 5 blank (Some flat3) 3 zero 0 = Err Undefined.
Proof.
  apply (equal_samples_undefined LU_accept 5 blank flat3 3 zero 0 (of_int 7));
    first [lia | vm_compute; reflexivity].
Defined.

(** ** The node abscissae *)

(** A rejected call leaves the object alone, so the cache of [nodes]
    survives every call of [setDomain] that returns. *)
Lemma setDomain_keeps_Nodes
  (LUf : MatrixT -> list Z -> Z -> MatrixT * list Z * Z)
  fuel st x nx wl bc ok st' :
  setDomain LUf fuel st x nx wl bc = Ok (ok, st') ->
  Nodes (base st') = Nodes (base st).
Proof.
  intros H.
  destruct x as [arr|]; [|injection H as <- <-; reflexivity].
  destruct (Z.leb_spec nx 0) as [Hn|Hn].
  { rewrite setDomain_invalid in H by auto. injection H as <- <-. reflexivity. }
  destruct (flt wl (of_int 0)) eqn:Hw.
  { rewrite setDomain_invalid in H by auto. injection H as <- <-. reflexivity. }
  destruct (Z.ltb_spec bc 0) as [Hb|Hb].
  { rewrite setDomain_invalid in H by auto. injection H as <- <-. reflexivity. }
  destruct (Z.ltb_spec 2 bc) as [Hb'|Hb'].
  { rewrite setDomain_invalid in H by auto 6. injection H as <- <-. reflexivity. }
  apply setDomain_accepted_inv in H; try assumption; [|lia].
  destruct H as (_ & lo & hi & H). apply H.
Qed.

Lemma range_length lo hi : lo <= hi -> Z.of_nat (length (range lo hi)) = hi - lo.
Proof. intros H. unfold range. rewrite length_seqZ. lia. Qed.

Lemma with_Nodes_same st : with_Nodes st (Nodes (base st)) = st.
Proof. destruct st as [? ? ? ? ? ? ? ? ? ? []]. reflexivity. Qed.

Lemma nodes_cached st :
  Nodes (base st) <> [] ->
  nodes st =
  if Z.of_nat (length (Nodes (base st))) =? (M st + 1) mod 2 ^ 32
  then Ok (Nodes (base st), st) else Err AssertFailed.
Proof.
  intros Hne. unfold nodes.
  destruct (Z.of_nat (length (Nodes (base st))) =? 0) eqn:E.
  { zbool. destruct (Nodes (base st)); [congruence | discriminate]. }
  cbn [rbind]. rewrite with_Nodes_same.
  destruct (_ =? (M st + 1) mod 2 ^ 32); reflexivity.
Qed.

(** The first call of [nodes] on an object with an empty cache fills it
    with the [M+1] abscissae [xmin + i * DX], each computed by one binary32
    multiplication and one addition, and a second call returns the same
    values without changing the object. *)
Theorem nodes_fresh (st : BSplineBase) :
  Nodes (base st) = [] -> 0 <= M st < 2 ^ 31 - 1 ->
  exists ns,
    nodes st = Ok (ns, with_Nodes st ns) /\
    Z.of_nat (length ns) = M st + 1 /\
    (forall i, 0 <= i <= M st ->
               vget ns i = Ok (fadd (xmin st) (fmul (of_int i) (DX st)))) /\
    nodes (with_Nodes st ns) = Ok (ns, with_Nodes st ns).
Proof.
  intros Hempty HM.
  set (ns := (fun i => fadd (xmin st) (fmul (of_int i) (DX st))) <$> range 0 (M st + 1)).
  assert (Hlen : Z.of_nat (length ns) = M st + 1).
  { unfold ns. rewrite length_fmap, range_length by lia. lia. }
  assert (Hmod : (M st + 1) mod 2 ^ 32 = M st + 1) by (apply Z.mod_small; lia).
  exists ns. split; [|split; [exact Hlen|split]].
  - unfold nodes. rewrite Hempty. change (Z.of_nat (length []) =? 0) with true.
    destruct (M st + 1 <? 0) eqn:E; [zbool; lia|]. cbv iota. cbn [rbind]. fold ns.
    rewrite Hlen, Hmod, Z.eqb_refl. reflexivity.
  - intros i Hi. unfold vget. destruct (i <? 0) eqn:E; [zbool; lia|].
    unfold ns, range. rewrite list_lookup_fmap, lookup_seqZ_lt by lia. cbn.
    repeat f_equal; lia.
  - rewrite nodes_cached.
    + change (Nodes (base (with_Nodes st ns))) with ns.
      change (M (with_Nodes st ns)) with (M st).
      rewrite Hlen, Hmod, Z.eqb_refl. reflexivity.
    + cbn. intros E. rewrite E in Hlen. cbn in Hlen. lia.
Qed.

Lemma nodes_fresh_witness :
  exists ns,
    nodes ready12 = Ok (ns, with_Nodes ready12 ns) /\
    Z.of_nat (length ns) = M ready12 + 1 /\
    (forall i, 0 <= i <= M ready12 ->
               vget ns i = Ok (fadd (xmin ready12) (fmul (of_int i) (DX ready12)))) /\
    nodes (with_Nodes ready12 ns) = Ok (ns, with_Nodes ready12 ns).
Proof.
  apply (nodes_fresh ready12); vm_compute; first [reflexivity | split; [discriminate | reflexivity]].
Defined.

(** [setDomain] does not clear the cache of [nodes].  Once [nodes] has
    been called, a later [setDomain] that returns leaves the old abscissae
    in place: [nodes] then returns them unchanged when the new grid has as
    many intervals as the old one, and stops at its assertion on the size of
    the cache when it has not. *)
Theorem nodes_stale_after_setDomain
  (LUf : MatrixT -> list Z -> Z -> MatrixT * list Z * Z)
  (fuel : nat) (st0 st1 st2 : BSplineBase) (ns : list float)
  (x : option (list float)) (nx : Z) (wl : float) (bc : Z) (ok : bool) :
  0 <= M st0 < 2 ^ 31 - 1 -> 0 <= M st2 < 2 ^ 31 - 1 ->
  nodes st0 = Ok (ns, st1) ->
  setDomain LUf fuel st1 x nx wl bc = Ok (ok, st2) ->
  (M st2 = M st0 -> nodes st2 = Ok (ns, st2)) /\
  (M st2 <> M st0 -> nodes st2 = Err AssertFailed).
Proof.
  intros HM0 HM2 Hn Hs.
  apply setDomain_keeps_Nodes in Hs.
  assert (Hns : Nodes (base st1) = ns /\ Z.of_nat (length ns) = M st0 + 1).
  { unfold nodes in Hn. inv_bind Hn as l Hl.
    destruct (negb _) eqn:E; [discriminate|]. injection Hn as <- <-.
    apply negb_false_iff in E. zbool.
    rewrite Z.mod_small in E by lia. split; [reflexivity | exact E]. }
  destruct Hns as [Hns Hlen]. rewrite Hns in Hs.
  assert (Hne : Nodes (base st2) <> []).
  { rewrite Hs. intros E. rewrite E in Hlen. cbn in Hlen. lia. }
  rewrite (nodes_cached _ Hne), Hs, Hlen, Z.mod_small by lia.
  split; intros H.
  - rewrite H, Z.eqb_refl. reflexivity.
  - destruct (M st0 + 1 =? M st2 + 1) eqn:E; [zbool; lia | reflexivity].
Qed.

Lemma nodes_stale_after_setDomain_witness :
  (M renoded12 = M ready10 -> nodes renoded12 = Ok (noded10.1, renoded12)) /\
  (M renoded12 <> M ready10 -> nodes renoded12 = Err AssertFailed).
Proof.
  apply (nodes_stale_after_setDomain LU_accept 50 ready10 noded10.2 renoded12 noded10.1
           (Some (ramp 12)) 12 (of_int 5) 2 true);
    vm_compute; first [reflexivity | split; [discriminate | reflexivity]].
Defined.

(** ** Fitting and evaluating *)

Lemma data_mean_total y n :
  n <= Z.of_nat (length y) -> exists mu, data_mean y n = Ok mu.
Proof.
  intros Hn. unfold data_mean.
  match goal with |- context [forM ?l ?b ?s] =>
    destruct (forM_total l b s) as [sum ->] end; [|cbn [rbind]; eauto].
  intros i acc Hi. apply elem_of_range in Hi.
  destruct (vget_total y i) as [yi ->]; [lia|]. cbn [rbind]. eauto.
Qed.

Lemma rhs_total fuel st y mu :
  1 <= M st -> 0 <= BC st <= 2 -> (2 <= fuel)%nat ->
  NX st <= Z.of_nat (length y) -> NX st <= Z.of_nat (length (X (base st))) ->
  exists B, rhs fuel st y mu = Ok B /\ Z.of_nat (length B) = M st + 1.
Proof.
  intros HM Hbc Hf Hy Hx. unfold rhs.
  match goal with |- context [forM ?l ?b ?s] =>
    destruct (forM_total l b s) as [B HB] end.
  { intros m B _.
    match goal with |- context [forM ?l ?b ?s] =>
      destruct (forM_total l b s) as [sum ->] end; [|cbn [rbind]; eauto].
    intros j acc Hj. apply elem_of_range in Hj.
    destruct (vget_total y j) as [yj ->]; [lia|]. cbn [rbind].
    destruct (vget_total (X (base st)) j) as [xj ->]; [lia|]. cbn [rbind].
    destruct (Basis_total fuel st m xj HM Hbc Hf) as [b ->]. cbn [rbind]. eauto. }
  exists B. split; [exact HB|]. revert HB.
  apply (forM_inv (fun B => Z.of_nat (length B) = M st + 1)).
  - rewrite length_replicate. lia.
  - intros m B1 B2 _ H1 Hb. inv_bind Hb as sum Hsum. injection Hb as <-.
    now rewrite length_insert.
Qed.

(** Over a ready domain with at least one node interval, [apply] (the
    constructor of [BSpline]) always reaches the solver when given at least
    [NX] data values and a recursion depth of one for [Basis]: the mean and
    the right-hand side [B] of [M+1] entries are computed without error, the
    coefficients are what [LU_solve_banded] leaves in [B], and the run ends
    in [exit(1)] exactly when the solver reports a failure. *)
Theorem apply_reaches_solver
  (solve : MatrixT -> list Z -> list float -> list float * Z)
  (fuel : nat) (mean0 : float) (bb : BSplineBase) (y : list float) :
  OK bb = true -> 1 <= M bb -> 0 <= BC bb <= 2 -> (2 <= fuel)%nat ->
  (length (X (base bb)) <= length y)%nat ->
  exists mu B,
    data_mean y (Z.of_nat (length (X (base bb)))) = Ok mu /\
    rhs fuel (BSplineBase_copy bb) y mu = Ok B /\
    Z.of_nat (length B) = M bb + 1 /\
    apply solve fuel mean0 bb y =
    if snd (solve (LU (base bb)) (index (base bb)) B) =? 0
    then Ok (mkSpline (BSplineBase_copy bb)
               (mkSplineP [] (fst (solve (LU (base bb)) (index (base bb)) B)) []) mu)
    else Err Exited.
Proof.
  intros HOK HM Hbc Hf Hy.
  destruct (data_mean_total y (Z.of_nat (length (X (base bb))))) as [mu Hmu]; [lia|].
  destruct (rhs_total fuel (BSplineBase_copy bb) y mu) as (B & HB & HlenB);
    try assumption; try (cbn; lia).
  exists mu, B. split; [exact Hmu|]. split; [exact HB|]. split; [exact HlenB|].
  unfold apply, BSpline_new.
  change (OK (BSplineBase_copy bb)) with (OK bb). rewrite HOK. cbn [negb].
  change (NX (BSplineBase_copy bb)) with (Z.of_nat (length (X (base bb)))).
  rewrite Hmu. cbn [rbind]. rewrite HB. cbn [rbind].
  change (LU (base (BSplineBase_copy bb))) with (LU (base bb)).
  change (index (base (BSplineBase_copy bb))) with (index (base bb)).
  destruct (solve (LU (base bb)) (index (base bb)) B) as [a rc]. cbn [fst snd].
  destruct (rc =? 0); reflexivity.
Qed.

Lemma apply_reaches_solver_witness :
  exists mu B,
    data_mean (replicate 12 (of_int 1)) (Z.of_nat (length (X (base ready12)))) = Ok mu /\
    rhs 5 (BSplineBase_copy ready12) (replicate 12 (of_int 1)) mu = Ok B /\
    Z.of_nat (length B) = M ready12 + 1 /\
    apply solve_accept 5 zero ready12 (replicate 12 (of_int 1)) =
    if snd (solve_accept (LU (base ready12)) (index (base ready12)) B) =? 0
    then Ok (mkSpline (BSplineBase_copy ready12)
               (mkSplineP []
                  (fst (solve_accept (LU (base ready12)) (index (base ready12)) B)) []) mu)
    else Err Exited.
Proof.
  apply (apply_reaches_solver solve_accept 5 zero ready12 (replicate 12 (of_int 1)));
    first [lia | vm_compute; reflexivity | vm_compute; discriminate
          | vm_compute; split; discriminate | vm_compute; lia ].
Defined.

(** A ready spline whose coefficients are all 0 evaluates to [0 + mean] at
    every abscissa where the basis values are finite: the sum
    [y += A[i] * Basis (i, x)] stays at +0. *)
Theorem evaluate_zero_coefficients (fuel : nat) (sp : BSpline) (x : float) :
  OK (bsb sp) = true -> 0 <= M (bsb sp) ->
  A (s sp) = replicate (Z.to_nat (M (bsb sp) + 1)) zero ->
  basis_finite_at fuel (bsb sp) x = true ->
  evaluate fuel sp x = Ok (fadd zero (mean sp)).
Proof.
  intros HOK HM HA Hfin. unfold evaluate. rewrite HOK, HA.
  change (of_int 0) with zero.
  rewrite forM_fixed; [reflexivity|].
  intros i Hi. rewrite vget_replicate by (apply elem_of_range in Hi; lia).
  cbn [rbind]. unfold basis_finite_at in Hfin. rewrite forallb_forall in Hfin.
  specialize (Hfin i (proj1 (list_elem_of_In _ _) Hi)).
  destruct (Basis fuel (bsb sp) i x) as [b|e]; [|discriminate]. cbn [rbind].
  now rewrite fadd_zero_product.
Qed.

Lemma evaluate_zero_coefficients_witness :
  evaluate 5 spline_ones12 (lit32 7 2) = Ok (fadd zero (mean spline_ones12)).
Proof.
  apply (evaluate_zero_coefficients 5 spline_ones12 (lit32 7 2));
    vm_compute; first [reflexivity | discriminate].
Defined.

Lemma vget_app_l {A} (l1 l2 : list A) i :
  i < Z.of_nat (length l1) -> vget (l1 ++ l2) i = vget l1 i.
Proof.
  intros Hi. unfold vget. destruct (i <? 0) eqn:E; [reflexivity|]. zbool.
  rewrite lookup_app_l by lia. reflexivity.
Qed.

Lemma vget_snoc {A} (l : list A) a : vget (l ++ [a]) (Z.of_nat (length l)) = Ok a.
Proof.
  unfold vget. destruct (_ <? 0) eqn:E; [zbool; lia|].
  rewrite Nat2Z.id, lookup_app_r, Nat.sub_diag by lia. reflexivity.
Qed.

(** The first call of [curve] on a ready spline returns [M+1] values, the
    n-th of which is [evaluate] at the node abscissa [xmin + n * DX]; the
    call stores them in the object and changes nothing else. *)
Theorem curve_is_evaluate_at_nodes (fuel : nat) (sp sp' : BSpline) (l : list float) :
  0 <= M (bsb sp) -> spline (s sp) = [] ->
  curve fuel sp = Ok (Some l, sp') ->
  Z.of_nat (length l) = M (bsb sp) + 1 /\
  (forall n, 0 <= n <= M (bsb sp) ->
     exists v, vget l n = Ok v /\
               evaluate fuel sp
                 (fadd (xmin (bsb sp)) (fmul (of_int n) (DX (bsb sp)))) = Ok v) /\
  sp' = mkSpline (bsb sp) (mkSplineP l (A (s sp)) (A2 (s sp))) (mean sp).
Proof.
  intros HM Hempty. unfold curve.
  destruct (negb (OK (bsb sp))); [discriminate|]. rewrite Hempty.
  change (Z.of_nat (length []) =? 0) with true. cbv iota.
  intros H. inv_bind H as spl Hspl. injection H as <- <-.
  assert (Inv : Z.of_nat (length spl) = M (bsb sp) + 1 /\
                forall n, 0 <= n < M (bsb sp) + 1 ->
                  exists v, vget spl n = Ok v /\
                    evaluate fuel sp
                      (fadd (xmin (bsb sp)) (fmul (of_int n) (DX (bsb sp)))) = Ok v).
  { revert Hspl.
    apply (forM_range_inv
             (fun k (acc : list float) =>
                Z.of_nat (length acc) = k /\
                forall n, 0 <= n < k ->
                  exists v, vget acc n = Ok v /\
                    evaluate fuel sp
                      (fadd (xmin (bsb sp)) (fmul (of_int n) (DX (bsb sp)))) = Ok v)
             0 (M (bsb sp) + 1) _ [] spl); [lia | split; [reflexivity | lia] |].
    intros i acc acc' Hi [Hlen Hacc] Hb. inv_bind Hb as v Hv. injection Hb as <-.
    split; [rewrite length_app; cbn; lia|].
    intros n Hn. destruct (Z.eq_dec n i) as [->|Hne].
    - exists v. split; [|exact Hv]. rewrite <- Hlen. apply vget_snoc.
    - destruct (Hacc n) as (w & Hw & Hev); [lia|]. exists w. split; [|exact Hev].
      rewrite vget_app_l by lia. exact Hw. }
  destruct Inv as [Hlen Hall]. split; [exact Hlen|]. split; [|reflexivity].
  intros n Hn. apply Hall. lia.
Qed.

Lemma curve_is_evaluate_at_nodes_witness :
  Z.of_nat (length (default [] curve_ones12.1)) = M (bsb spline_ones12) + 1 /\
  (forall n, 0 <= n <= M (bsb spline_ones12) ->
     exists v, vget (default [] curve_ones12.1) n = Ok v /\
               evaluate 5 spline_ones12
                 (fadd (xmin (bsb spline_ones12))
                       (fmul (of_int n) (DX (bsb spline_ones12)))) = Ok v) /\
  curve_ones12.2 =
  mkSpline (bsb spline_ones12)
    (mkSplineP (default [] curve_ones12.1) (A (s spline_ones12)) (A2 (s spline_ones12)))
    (mean spline_ones12).
Proof.
  apply (curve_is_evaluate_at_nodes 5 spline_ones12 curve_ones12.2
           (default [] curve_ones12.1)); vm_compute; first [reflexivity | discriminate].
Defined.

(** ** [operator +=] on the banded store *)

Lemma added_row A0 B i C C' :
  0 <= dim A0 ->
  added_upto A0 B i 0 C ->
  forM (range 0 (dim A0))
       (fun j C => Ok (set C i j (fadd (get C i j) (get B i j)))) C = Ok C' ->
  added_upto A0 B (i + 1) 0 C'.
Proof.
  intros Hd HC Hrun.
  assert (H : added_upto A0 B i (dim A0) C').
  { revert Hrun. apply (forM_range_inv (fun k => added_upto A0 B i k)); [lia | exact HC |].
    intros j C1 C2 Hj (D1 & D2 & HC1) [= <-].
    destruct (set_dim C1 i j (fadd (get C1 i j) (get B i j))) as [E1 E2].
    split; [congruence|]. split; [congruence|].
    intros a b. rewrite get_set, (in_band_ext C1 A0) by assumption.
    rewrite (HC1 i j), (HC1 a b).
    case_bool_decide as Heq.
    - inversion Heq; subst a b.
      rewrite !Z.ltb_irrefl, Z.eqb_refl. cbn [orb andb].
      destruct (j <? j + 1) eqn:E; [|zbool; lia].
      destruct (in_band A0 i j); reflexivity.
    - rewrite andb_false_r.
      destruct (a =? i) eqn:Ea; [|rewrite !andb_false_l; reflexivity].
      zbool. subst a. cbn [andb].
      assert (b <> j) by congruence.
      destruct (b <? j) eqn:L1, (b <? j + 1) eqn:L2; zbool; try lia; reflexivity. }
  destruct H as (D1 & D2 & H). split; [exact D1|]. split; [exact D2|].
  intros a b. rewrite H.
  destruct (in_band A0 a b) eqn:Hb; [|rewrite !andb_false_r; reflexivity].
  rewrite !andb_true_r.
  assert (Hlt : 0 <= b < dim A0).
  { unfold in_band in Hb. repeat (apply andb_true_iff in Hb as [Hb ?]). zbool. lia. }
  destruct (a <? i) eqn:L1, (a =? i) eqn:L2, (a <? i + 1) eqn:L3, (a =? i + 1) eqn:L4,
    (b <? dim A0) eqn:L5, (b <? 0) eqn:L6; zbool; try lia; reflexivity.
Qed.

(** [A += B] stops at its assertion when the two matrices differ in
    size.  Otherwise it returns a matrix of the size and bandwidth of [A]
    whose entries inside the band of [A] are the binary32 sums
    [A[i][j] + B[i][j]] and whose entries outside it are 0; the sum of two
    symmetric matrices is symmetric. *)
Theorem matrix_add_entries (A B : MatrixT) :
  (dim A <> dim B -> matrix_add A B = Err AssertFailed) /\
  (dim A = dim B ->
   exists C, matrix_add A B = Ok C /\ dim C = dim A /\ bands C = bands A /\
     (forall i j, get C i j =
                  if in_band A i j then fadd (get A i j) (get B i j) else zero) /\
     (symmetric A -> symmetric B -> symmetric C)).
Proof.
  split.
  - intros Hne. unfold matrix_add. cbv zeta.
    destruct (dim A =? dim B) eqn:E; [zbool; contradiction | reflexivity].
  - intros Hd. unfold matrix_add. cbv zeta. rewrite Hd, Z.eqb_refl. cbn [negb].
    rewrite <- Hd.
    match goal with |- context [forM ?l ?b ?s] =>
      destruct (forM_total l b s) as [C HC] end.
    { intros i C1 _. apply forM_total. intros j C2 _. eauto. }
    exists C. split; [exact HC|].
    assert (Hent : dim C = dim A /\ bands C = bands A /\
                   forall i j, get C i j =
                     if in_band A i j then fadd (get A i j) (get B i j) else zero).
    { destruct (Z.lt_ge_cases (dim A) 0) as [Hneg|Hpos].
      - rewrite range_nil in HC by lia. injection HC as <-.
        repeat split. intros i j.
        assert (Hb : in_band A i j = false).
        { unfold in_band. destruct (0 <=? i) eqn:E1, (i <? dim A) eqn:E2; zbool;
            try reflexivity; lia. }
        rewrite Hb. now apply get_out_of_band.
      - assert (H : added_upto A B (dim A) 0 C).
        { revert HC. apply (forM_range_inv (fun k => added_upto A B k 0)); [lia | |].
          - repeat split. intros a b.
            destruct (a <? 0) eqn:E1; [|destruct ((a =? 0) && (b <? 0)) eqn:E2];
              cbn [orb andb]; try reflexivity.
            + zbool. assert (Hb : in_band A a b = false).
              { unfold in_band. destruct (0 <=? a) eqn:E; [zbool; lia | reflexivity]. }
              rewrite Hb. reflexivity.
            + apply andb_true_iff in E2 as [E2 E3]. zbool.
              assert (Hb : in_band A a b = false).
              { unfold in_band. destruct (0 <=? a), (a <? dim A); cbn [andb];
                  try reflexivity.
                destruct (0 <=? b) eqn:E; [zbool; lia | reflexivity]. }
              rewrite Hb. reflexivity.
          - intros i C1 C2 _ HC1 Hrow. apply (added_row A B i C1 C2); assumption. }
        destruct H as (D1 & D2 & H). repeat split; try assumption.
        intros i j. rewrite H.
        destruct (in_band A i j) eqn:Hb.
        + assert (Hlt : i < dim A).
          { unfold in_band in Hb. repeat (apply andb_true_iff in Hb as [Hb ?]). zbool. lia. }
          destruct (i <? dim A) eqn:E; [reflexivity | zbool; lia].
        + rewrite andb_false_r. now apply get_out_of_band. }
    destruct Hent as (D1 & D2 & Hent). repeat split; try assumption.
    intros HA HB i j. rewrite !Hent, (in_band_sym A j i), (HA j i), (HB j i). reflexivity.
Qed.
